(** * Ultra Pomodoro backend ([server.py]): hosts blocking and room relay

    A shallow embedding of the hosts-file block manager, the domain
    normaliser, the resolution prober and the Socket.IO room handlers of
    [server.py], followed by the properties the specification states
    about them.

    Python [str] values are modelled as [string]; a character is a code
    point below 256 (the Latin-1 range), which covers the two ASCII markers
    and every host name.  The hosts file, the effective user id and the
    resolver are an explicit [world]: the file holds the characters that
    are stored, reading gives them as text mode does (line ends as line
    feeds, nothing when the file cannot be read or decoded), and a write
    can complete, fail before the file is touched, or break off once the
    file has been emptied.  The Socket.IO server is an explicit
    [Sio.state] (room membership and the messages emitted so far). *)

From stdpp Require Import base list strings gmap sorting.
From Stdlib Require Import Ascii.

#[local] Set Warnings "-clear-no-such-hyp".

#[local] Arguments String.append !_ _ / : simpl nomatch.

(** ** Python string primitives *)

Module Py.

(** ["\n"] *)
Definition nl : string := String "010"%char "".

Definition code (c : ascii) : N := N_of_ascii c.

(** [str.isspace] on one character (Latin-1 range): TAB, LF, VT, FF, CR,
    FS, GS, RS, US, SPACE, NEL and NBSP. *)
Definition isspace (c : ascii) : bool :=
  let n := code c in
  ((9 <=? n) && (n <=? 13) || (28 <=? n) && (n <=? 32)
   || (n =? 133) || (n =? 160))%N.

(** [str.lower] on one character (Latin-1 range): A-Z and the accented
    capitals U+00C0..U+00DE except the multiplication sign U+00D7. *)
Definition lower_char (c : ascii) : ascii :=
  let n := code c in
  if ((65 <=? n) && (n <=? 90)
      || (192 <=? n) && (n <=? 222) && negb (n =? 215))%N
  then ascii_of_N (n + 32) else c.

Fixpoint lower (s : string) : string :=
  match s with
  | EmptyString => EmptyString
  | String c s' => String (lower_char c) (lower s')
  end.

Fixpoint lstrip (s : string) : string :=
  match s with
  | EmptyString => EmptyString
  | String c s' => if isspace c then lstrip s' else s
  end.

(** [rstrip]: a character is dropped when it is white space and
    everything after it has been dropped. *)
Fixpoint rstrip (s : string) : string :=
  match s with
  | EmptyString => EmptyString
  | String c s' =>
      match rstrip s' with
      | EmptyString => if isspace c then EmptyString else String c EmptyString
      | r => String c r
      end
  end.

Definition strip (s : string) : string := rstrip (lstrip s).

Definition startswith (s p : string) : bool := String.prefix p s.

(** [s[n:]] *)
Fixpoint drop (n : nat) (s : string) : string :=
  match n, s with
  | O, _ => s
  | S _, EmptyString => EmptyString
  | S n', String _ s' => drop n' s'
  end.

(** [s.split(sep)[0]] for a one-character separator: the part of [s]
    before the first [sep], all of [s] when there is none. *)
Fixpoint split_head (sep : ascii) (s : string) : string :=
  match s with
  | EmptyString => EmptyString
  | String c s' =>
      if Ascii.eqb c sep then EmptyString else String c (split_head sep s')
  end.

(** [p in s] *)
Fixpoint contains (p s : string) : bool :=
  String.prefix p s
  || match s with
     | EmptyString => false
     | String _ s' => contains p s'
     end.

(** [s.count(p)] for a pattern that cannot overlap itself, as the
    number of positions of [s] where [p] starts. *)
Fixpoint count (p s : string) : nat :=
  (if String.prefix p s then 1 else 0)
  + match s with
    | EmptyString => 0
    | String _ s' => count p s'
    end.

(** The rest of [s] after the first occurrence of [p], if any. *)
Fixpoint after_first (p s : string) : option string :=
  if String.prefix p s then Some (drop (String.length p) s)
  else match s with
       | EmptyString => None
       | String _ s' => after_first p s'
       end.

(** An ASCII capital letter, A-Z. *)
Definition isupper_ascii (c : ascii) : bool :=
  ((65 <=? code c) && (code c <=? 90))%N.

(** [s] has no ASCII capital letter. *)
Fixpoint no_upper (s : string) : bool :=
  match s with
  | EmptyString => true
  | String c s' => negb (isupper_ascii c) && no_upper s'
  end.

Fixpoint all_space (s : string) : bool :=
  match s with
  | EmptyString => true
  | String c s' => isspace c && all_space s'
  end.

(** [s[-1:]] as an option *)
Fixpoint last_char (s : string) : option ascii :=
  match s with
  | EmptyString => None
  | String c EmptyString => Some c
  | String _ s' => last_char s'
  end.

(** [s] ends with a white-space character. *)
Definition ends_with_space (s : string) : bool :=
  match last_char s with
  | Some c => isspace c
  | None => false
  end.

(** [s[:n]] *)
Fixpoint take (n : nat) (s : string) : string :=
  match n, s with
  | O, _ => EmptyString
  | S _, EmptyString => EmptyString
  | S n', String c s' => String c (take n' s')
  end.

Definition cr : ascii := "013"%char.
Definition lf : ascii := "010"%char.

(** What a file opened in text mode with the default [newline=None]
    gives to [read()]: a carriage return followed by a line feed, and a
    carriage return alone, come out as one line feed. *)
Fixpoint universal_newlines (s : string) : string :=
  match s with
  | EmptyString => EmptyString
  | String c s' =>
      if Ascii.eqb c cr then
        match s' with
        | String c' _ =>
            if Ascii.eqb c' lf then universal_newlines s'
            else String lf (universal_newlines s')
        | EmptyString => String lf EmptyString
        end
      else String c (universal_newlines s')
  end.

(** [s] has no carriage return. *)
Fixpoint no_cr (s : string) : bool :=
  match s with
  | EmptyString => true
  | String c s' => negb (Ascii.eqb c cr) && no_cr s'
  end.

End Py.

(** ** Constants of [server.py] *)

Definition HOSTS_TAG_START : string := "# === ULTRA_POMODORO_BLOCK_START ===".
Definition HOSTS_TAG_END : string := "# === ULTRA_POMODORO_BLOCK_END ===".

(** ** [strip_ultra_block_section] *)

(** [re.sub(START + ".*?" + END, "", text)] with [re.DOTALL]: the scan goes
    left to right; where the start marker matches and an end marker
    follows, the span up to and including the nearest end marker is
    deleted and the scan resumes after it; elsewhere the character is
    kept.  [fuel] bounds the number of scan steps. *)
Fixpoint sub_block (fuel : nat) (s : string) : string :=
  match fuel with
  | O => s
  | S fuel' =>
      match s with
      | EmptyString => EmptyString
      | String c s' =>
          if Py.startswith s HOSTS_TAG_START then
            match Py.after_first HOSTS_TAG_END
                    (Py.drop (String.length HOSTS_TAG_START) s) with
            | Some rest => sub_block fuel' rest
            | None => String c (sub_block fuel' s')
            end
          else String c (sub_block fuel' s')
      end
  end.

Definition re_sub_block (s : string) : string :=
  sub_block (String.length s) s.

Definition marker (m : string) : Prop :=
  m = HOSTS_TAG_START ∨ m = HOSTS_TAG_END.

(** The pattern has a match in [s]: a start marker with an end marker
    somewhere after it. *)
Fixpoint has_block (s : string) : bool :=
  Py.startswith s HOSTS_TAG_START
  && Py.contains HOSTS_TAG_END (Py.drop (String.length HOSTS_TAG_START) s)
  || match s with
     | EmptyString => false
     | String _ s' => has_block s'
     end.

Definition strip_ultra_block_section (hosts_text : string) : string :=
  let cleaned := re_sub_block hosts_text in
  Py.rstrip cleaned +:+ Py.nl.

(** ** [expand_domains] *)

(** [re.sub(r"^https?://", "", d)]: the anchored pattern can match at the
    start only. *)
Definition re_sub_scheme (d : string) : string :=
  if Py.startswith d "http://" then Py.drop 7 d
  else if Py.startswith d "https://" then Py.drop 8 d
  else d.

(** The body of the first loop up to [d = d.split("/")[0]]: the canonical
    form of one raw domain, [None] where the loop does [continue]. *)
Definition canonical (d : string) : option string :=
  let d := Py.lower (Py.strip d) in
  if String.eqb d "" then None
  else
    let d :=
      if Py.startswith d "http://" || Py.startswith d "https://"
      then re_sub_scheme d else d in
    Some (Py.split_head "/" d).

(** One iteration of the first loop, on the list [out] built so far. *)
Definition expand_step (out : list string) (d : string) : list string :=
  match canonical d with
  | None => out
  | Some d =>
      let out := out ++ [d] in
      if negb (Py.startswith d "www.") then out ++ ["www." +:+ d] else out
  end.

(** One iteration of the second loop, on the pair ([seen], [uniq]). *)
Definition uniq_step (st : gset string * list string) (d : string)
  : gset string * list string :=
  if decide (d ∈ st.1) then st else ({[d]} ∪ st.1, st.2 ++ [d]).

(** The list [out] after the first loop. *)
Definition expand_out (domains : list string) : list string :=
  foldl expand_step [] domains.

Definition expand_domains (domains : list string) : list string :=
  let out := expand_out domains in
  (foldl uniq_step (∅, []) out).2.

(** The two loops as recursive functions: what one canonical form adds to
    [out], and the entries of a list that are not in [seen] and not
    earlier in the list. *)
Definition with_www (d : string) : list string :=
  d :: (if Py.startswith d "www." then [] else ["www." +:+ d]).

Definition expand_one (d : string) : list string :=
  match canonical d with
  | None => []
  | Some d => with_www d
  end.

Fixpoint dedup (seen : gset string) (l : list string) : list string :=
  match l with
  | [] => []
  | d :: l' =>
      if decide (d ∈ seen) then dedup seen l'
      else d :: dedup ({[d]} ∪ seen) l'
  end.

(** ** The machine [server.py] runs on *)

(** What the hosts-block functions do to the outside world, in order. *)
Inductive event :=
| EvRead                                (* [open(HOSTS_FILE, "r")] *)
| EvWrite (text : string) (ok : bool)   (* [open(HOSTS_FILE, "w")] *)
| EvRun (cmd : list string).            (* [subprocess.run(cmd)] *)

(** One entry of [socket.getaddrinfo]'s result:
    [(family, type, proto, canonname, sockaddr)], with [sockaddr[0]] the
    address. *)
Record addrinfo := {
  ai_family : Z;
  ai_addr : string;   (* [sockaddr[0]] *)
  ai_port : Z;        (* [sockaddr[1]] *)
}.

(** What becomes of [with open(HOSTS_FILE, "w") as f: f.write(text)]:
    it completes; or [open] raises, before the file is touched; or [open]
    has emptied the file and an exception comes later ([f.write], or the
    flush when the file is closed), when the first [n] characters of
    [text] have reached the file. *)
Inductive write_outcome :=
| WriteOk
| OpenFails
| WriteFails (n : nat).

(** The hosts file holds characters: what its bytes decode to as UTF-8,
    with the line ends that are stored.  It is [None] when the file
    cannot be read as such: [open] raises, or the bytes are no UTF-8 and
    [read] raises. *)
Record world := {
  euid_root : bool;                     (* [os.geteuid() == 0] *)
  is_macos : bool;                      (* [platform.system() == "Darwin"] *)
  hosts_file : option string;
  hosts_write : write_outcome;
  getaddrinfo : string → option (list addrinfo);   (* [None]: raises *)
  trace : list event;
}.

(** A write to the hosts file completes. *)
Definition hosts_writable (w : world) : bool :=
  match hosts_write w with
  | WriteOk => true
  | _ => false
  end.

Definition log (e : event) (w : world) : world :=
  {| euid_root := euid_root w; is_macos := is_macos w;
     hosts_file := hosts_file w; hosts_write := hosts_write w;
     getaddrinfo := getaddrinfo w; trace := trace w ++ [e] |}.

Definition set_hosts (text : string) (w : world) : world :=
  {| euid_root := euid_root w; is_macos := is_macos w;
     hosts_file := Some text; hosts_write := hosts_write w;
     getaddrinfo := getaddrinfo w; trace := trace w |}.

(** State passing over [world]. *)
Definition M (A : Type) : Type := world → A * world.

Definition ret {A} (a : A) : M A := λ w, (a, w).
Definition bind {A B} (m : M A) (k : A → M B) : M B :=
  λ w, let '(a, w') := m w in k a w'.

Notation "'let!' x ':=' m 'in' k" := (bind m (λ x, k))
  (at level 10, x name, m at level 100, k at level 200, only parsing).

(** The text [read_hosts] returns in [w]: the characters of the file as
    text mode gives them, the empty string when reading raises. *)
Definition hosts_text (w : world) : string :=
  match hosts_file w with
  | Some doc => Py.universal_newlines doc
  | None => ""
  end.

Definition require_root : M bool := λ w, (euid_root w, w).

Definition read_hosts : M string :=
  λ w, (hosts_text w, log EvRead w).

(** The server writes as root only, hence on a POSIX system, where text
    mode writes the characters of [text] as they are.  Every exception
    is answered [False], whatever has reached the file by then. *)
Definition write_hosts (text : string) : M bool :=
  λ w, match hosts_write w with
       | WriteOk => (true, log (EvWrite text true) (set_hosts text w))
       | OpenFails => (false, log (EvWrite text false) w)
       | WriteFails n =>
           (false, log (EvWrite text false) (set_hosts (Py.take n text) w))
       end.

Definition flush_dns : M unit :=
  λ w, if is_macos w
       then (tt, log (EvRun ["killall"; "-HUP"; "mDNSResponder"])
                   (log (EvRun ["dscacheutil"; "-flushcache"]) w))
       else (tt, w).

(** ** [apply_hosts_block] and [clear_hosts_block] *)

(** The list [lines] once the loop over the domains is done. *)
Definition block_lines (domains : list string) : list string :=
  foldl (λ lines d, (lines ++ ["127.0.0.1 " +:+ d]) ++ ["::1 " +:+ d])
        [HOSTS_TAG_START] domains
  ++ [HOSTS_TAG_END].

(** The text of the block between the start marker and the end marker:
    a newline, then two lines for each domain. *)
Fixpoint block_body (domains : list string) : string :=
  match domains with
  | [] => Py.nl
  | d :: domains' =>
      Py.nl +:+ "127.0.0.1 " +:+ d +:+ Py.nl +:+ "::1 " +:+ d
      +:+ block_body domains'
  end.

(** The body of the block written for [domains], as it is read back. *)
Definition body_read (domains : list string) : string :=
  Py.universal_newlines (block_body (expand_domains domains)).

(** What a successful Apply writes when it has read [text]. *)
Definition applied (domains : list string) (text : string) : string :=
  strip_ultra_block_section text +:+ Py.nl
  +:+ String.concat Py.nl (block_lines (expand_domains domains)) +:+ Py.nl.

Definition apply_hosts_block (domains : list string)
  : M (bool * option string) :=
  let! root := require_root in
  if negb root then ret (false, Some "permission")
  else
    let domains := expand_domains domains in
    let! text := read_hosts in
    let hosts := strip_ultra_block_section text in
    let lines := block_lines domains in
    let new_hosts :=
      hosts +:+ Py.nl +:+ String.concat Py.nl lines +:+ Py.nl in
    let! ok := write_hosts new_hosts in
    if ok then let! _ := flush_dns in ret (true, None)
    else ret (false, Some "write_failed").

Definition clear_hosts_block : M (bool * option string) :=
  let! root := require_root in
  if negb root then ret (false, Some "permission")
  else
    let! text := read_hosts in
    let hosts := strip_ultra_block_section text in
    let! ok := write_hosts hosts in
    if ok then let! _ := flush_dns in ret (true, None)
    else ret (false, Some "write_failed").

(** A machine where the server runs as root and the hosts file, holding
    [text], can be written. *)
Definition root_world (text : option string) : world :=
  {| euid_root := true; is_macos := false; hosts_file := text;
     hosts_write := WriteOk; getaddrinfo := λ _, None; trace := [] |}.

(** The same machine without root. *)
Definition user_world (text : option string) : world :=
  {| euid_root := false; is_macos := false; hosts_file := text;
     hosts_write := WriteOk; getaddrinfo := λ _, None; trace := [] |}.

(** ** [resolve_all] *)

Definition resolve_all (domain : string) : M (list string) :=
  λ w,
    let ips : gset string :=
      match getaddrinfo w domain with
      | Some infos => foldl (λ ips ai, {[ai_addr ai]} ∪ ips) ∅ infos
      | None => ∅
      end in
    (merge_sort String.le (elements ips), w).

(** A resolver that knows [example.com] (with a repeated entry) and
    fails on every other name. *)
Definition example_resolver (domain : string) : option (list addrinfo) :=
  if String.eqb domain "example.com" then
    Some [ {| ai_family := 2; ai_addr := "93.184.216.34"; ai_port := 0 |};
           {| ai_family := 10; ai_addr := "2606:2800:220:1::1"; ai_port := 0 |};
           {| ai_family := 2; ai_addr := "93.184.216.34"; ai_port := 0 |} ]
  else None.

Definition resolver_world : world :=
  {| euid_root := false; is_macos := false; hosts_file := None;
     hosts_write := OpenFails; getaddrinfo := example_resolver;
     trace := [] |}.

(** ** Socket.IO rooms *)

(** A JSON value as an event handler receives it. *)
#[warnings="-register-all"]
Inductive json :=
| JNull
| JBool (b : bool)
| JNum (n : Z)
| JStr (s : string)
| JList (l : list json)
| JDict (kv : list (string * json)).

Module Sio.

(** One [emit]: the connections it is delivered to, the event name and
    the payload. *)
Record message := {
  msg_to : gset string;
  msg_event : string;
  msg_data : json;
}.

(** The server: the members of each room of namespace ["/"] (a room with
    no member has no entry) and the messages emitted so far. *)
Record state := {
  rooms : gmap string (gset string);
  outbox : list message;
}.

Definition members (room : string) (s : state) : gset string :=
  default ∅ (rooms s !! room).

(** [join_room(room)] for the connection [sid]. *)
Definition join_room (sid room : string) (s : state) : state :=
  {| rooms := <[room := {[sid]} ∪ members room s]> (rooms s);
     outbox := outbox s |}.

(** [leave_room(room)] for the connection [sid]; the room is dropped
    with its last member. *)
Definition leave_room (sid room : string) (s : state) : state :=
  let rest := members room s ∖ {[sid]} in
  {| rooms := if decide (rest = ∅) then delete room (rooms s)
              else <[room := rest]> (rooms s);
     outbox := outbox s |}.

(** [emit(event, data, room=room)], and with [include_self=False] when
    [skip] is the calling connection: delivered to every member of
    [room] but [skip]. *)
Definition emit (event : string) (data : json) (room : string)
    (skip : option string) (s : state) : state :=
  let to := match skip with
            | Some sid => members room s ∖ {[sid]}
            | None => members room s
            end in
  {| rooms := rooms s;
     outbox := outbox s ++
       [{| msg_to := to; msg_event := event; msg_data := data |}] |}.

End Sio.

(** Python truth value of a JSON value. *)
Definition truthy (v : json) : bool :=
  match v with
  | JNull => false
  | JBool b => b
  | JNum n => negb (n =? 0)%Z
  | JStr s => negb (String.eqb s "")
  | JList l => match l with [] => false | _ => true end
  | JDict kv => match kv with [] => false | _ => true end
  end.

Fixpoint dict_get (key : string) (kv : list (string * json)) : option json :=
  match kv with
  | [] => None
  | (k, v) :: kv' => if String.eqb k key then Some v else dict_get key kv'
  end.

(** [(data or {}).get("roomId", "").strip()]; [None] when it raises
    [AttributeError] (a payload that is no dict, a [roomId] that is no
    string). *)
Definition room_id_of (data : json) : option string :=
  match (if truthy data then data else JDict []) with
  | JDict kv =>
      match default (JStr "") (dict_get "roomId" kv) with
      | JStr s => Some (Py.strip s)
      | _ => None
      end
  | _ => None
  end.

Definition members_in (room_id : string) (s : Sio.state) : Z :=
  Z.of_nat (size (Sio.members room_id s)).

Definition room_info (room_id : string) (s : Sio.state) : json :=
  JDict [("roomId", JStr room_id); ("members", JNum (members_in room_id s))].

Definition missing_room_id : json :=
  JDict [("ok", JBool false); ("error", JStr "missing roomId")].

Definition room_ok (room_id : string) (s : Sio.state) : json :=
  JDict [("ok", JBool true); ("roomId", JStr room_id);
         ("members", JNum (members_in room_id s))].

(** An event handler run by the connection [sid]: the value it returns
    ([None] when it raises) and the server afterwards. *)
Definition handler : Type := string → json → Sio.state → option json * Sio.state.

Definition on_room_join : handler := λ sid data s,
  match room_id_of data with
  | None => (None, s)
  | Some room_id =>
      if String.eqb room_id "" then (Some missing_room_id, s)
      else
        let s := Sio.join_room sid room_id s in
        let s := Sio.emit "room:joined" (room_info room_id s) sid None s in
        let s := Sio.emit "room:members" (room_info room_id s) room_id None s in
        (Some (room_ok room_id s), s)
  end.

Definition on_room_leave : handler := λ sid data s,
  match room_id_of data with
  | None => (None, s)
  | Some room_id =>
      if String.eqb room_id "" then (Some missing_room_id, s)
      else
        let s := Sio.leave_room sid room_id s in
        let s := Sio.emit "room:members" (room_info room_id s) room_id None s in
        let s := Sio.emit "room:left" (room_info room_id s) sid None s in
        (Some (room_ok room_id s), s)
  end.

Definition on_timer_sync : handler := λ sid data s,
  match room_id_of data with
  | None => (None, s)
  | Some room_id =>
      if String.eqb room_id "" then (Some JNull, s)
      else (Some JNull, Sio.emit "timer:state" data room_id (Some sid) s)
  end.

Definition on_timer_penalty : handler := λ sid data s,
  match room_id_of data with
  | None => (None, s)
  | Some room_id =>
      if String.eqb room_id "" then (Some JNull, s)
      else (Some JNull, Sio.emit "timer:penalty" data room_id (Some sid) s)
  end.

(** A server with the connections [A], [B] and [C], each in the room
    Socket.IO names after it, and [A] and [B] in room [abc]. *)
Definition two_in_abc : Sio.state :=
  {| Sio.rooms :=
       <["abc" := {[ "A"; "B" ]}]>
         (<["A" := {[ "A" ]}]> (<["B" := {[ "B" ]}]> {[ "C" := {[ "C" ]} ]}));
     Sio.outbox := [] |}.

(** ** The routes of the block manager *)

(** The characters of a [str], each as a [str]. *)
Fixpoint chars (s : string) : list string :=
  match s with
  | EmptyString => []
  | String c s' => String c "" :: chars s'
  end.

(** [for d in v]: the values the loop sees; [None] when [v] cannot be
    iterated ([TypeError]).  A [str] gives its characters, a dict its
    keys. *)
Definition py_iter (v : json) : option (list json) :=
  match v with
  | JList l => Some l
  | JStr s => Some (JStr <$> chars s)
  | JDict kv => Some (JStr <$> kv.*1)
  | _ => None
  end.

(** [(d or "")] as the receiver of [.strip()]: [None] when it is no [str]
    ([AttributeError]). *)
Definition domain_text (d : json) : option string :=
  if truthy d then
    match d with
    | JStr s => Some s
    | _ => None
    end
  else Some "".

(** The strings [expand_domains] works on when it is called with the JSON
    value [domains]; [None] when the call raises. *)
Definition domain_strings (domains : json) : option (list string) :=
  l ← py_iter domains; mapM domain_text l.

(** [data = request.get_json(force=True) or {}] then
    [data.get("domains", []) or []]; [None] when [data] is no dict
    ([AttributeError]). *)
Definition get_domains (body : json) : option json :=
  match (if truthy body then body else JDict []) with
  | JDict kv =>
      let v := default (JList []) (dict_get "domains" kv) in
      Some (if truthy v then v else JList [])
  | _ => None
  end.

(** [apply_hosts_block(domains)] on a JSON value: the test for root comes
    before the domains are looked at, so a value that cannot be
    normalised makes the call raise only when the server is root. *)
Definition apply_hosts_block_dyn (domains : json)
  : M (option (bool * option string)) :=
  match domain_strings domains with
  | Some ds => let! r := apply_hosts_block ds in ret (Some r)
  | None =>
      let! root := require_root in
      if negb root then ret (Some (false, Some "permission")) else ret None
  end.

(** The order of two items of a dict with [str] keys: the order of the
    keys. *)
Definition key_le (a b : string * json) : Prop := String.le a.1 b.1.

#[global] Instance key_le_dec : RelDecision key_le :=
  λ a b, String.le_dec a.1 b.1.

(** [jsonify(v)]: the JSON value the response carries.  Flask serialises
    with [sort_keys], so the items of every object come in the order of
    their keys, whatever the order of the dict. *)
Fixpoint jsonify (v : json) : json :=
  match v with
  | JList l => JList (map jsonify l)
  | JDict kv =>
      JDict (merge_sort key_le
               (map (λ item, match item with
                             | (k, v') => (k, jsonify v')
                             end) kv))
  | _ => v
  end.

(** What a route returns: [jsonify(...)] and the status code. *)
Record response := {
  status : Z;
  payload : json;
}.

Definition error_response (err : option string) : response :=
  {| status := if decide (err = Some "permission") then 403 else 500;
     payload :=
       jsonify
         (JDict [("ok", JBool false);
                 ("error",
                  match err with Some e => JStr e | None => JNull end)])
  |}.

(** The routes; [None] when the view function raises. *)
Definition api_block_apply (body : json) : M (option response) :=
  match get_domains body with
  | None => ret None
  | Some domains =>
      let! r := apply_hosts_block_dyn domains in
      match r with
      | None => ret None
      | Some (ok, err) =>
          if negb ok then ret (Some (error_response err))
          else
            match domain_strings domains with
            | None => ret None
            | Some ds =>
                ret (Some {| status := 200;
                             payload :=
                               jsonify
                                 (JDict
                                    [("ok", JBool true);
                                     ("domains",
                                      JList (JStr <$> expand_domains ds))])
                          |})
            end
      end
  end.

Definition api_block_clear : M (option response) :=
  let! r := clear_hosts_block in
  if negb r.1 then ret (Some (error_response r.2))
  else ret (Some {| status := 200;
                    payload := jsonify (JDict [("ok", JBool true)]) |}).

Definition api_block_flush : M (option response) :=
  let! _ := flush_dns in
  ret (Some {| status := 200;
               payload := jsonify (JDict [("ok", JBool true)]) |}).

(** [{d: resolve_all(d) for d in domains}], as the list of its items. *)
Fixpoint resolve_each (domains : list string) : M (list (string * json)) :=
  match domains with
  | [] => ret []
  | d :: domains' =>
      let! ips := resolve_all d in
      let! rest := resolve_each domains' in
      ret ((d, JList (JStr <$> ips)) :: rest)
  end.

Definition api_block_test (body : json) : M (option response) :=
  match get_domains body with
  | None => ret None
  | Some domains =>
      match domain_strings domains with
      | None => ret None
      | Some ds =>
          let! resolutions := resolve_each (expand_domains ds) in
          ret (Some {| status := 200;
                       payload :=
                         jsonify
                           (JDict [("ok", JBool true);
                                   ("resolutions", JDict resolutions)]) |})
      end
  end.

(** The machine [w] on another platform. *)
Definition with_macos (b : bool) (w : world) : world :=
  {| euid_root := euid_root w; is_macos := b;
     hosts_file := hosts_file w; hosts_write := hosts_write w;
     getaddrinfo := getaddrinfo w; trace := trace w |}.

(** A root machine whose hosts file cannot be opened for writing. *)
Definition readonly_world (text : option string) : world :=
  {| euid_root := true; is_macos := true; hosts_file := text;
     hosts_write := OpenFails; getaddrinfo := λ _, None; trace := [] |}.

(** A root machine where a write to the hosts file breaks off when [n]
    characters have reached the file. *)
Definition failing_disk_world (n : nat) (text : option string) : world :=
  {| euid_root := true; is_macos := true; hosts_file := text;
     hosts_write := WriteFails n; getaddrinfo := λ _, None; trace := [] |}.

(** A resolver that gives the addresses of the example resolver in
    another order, and the machine that has it. *)
Definition example_resolver_rev (domain : string)
  : option (list addrinfo) :=
  if String.eqb domain "example.com" then
    Some [ {| ai_family := 10; ai_addr := "2606:2800:220:1::1"; ai_port := 0 |};
           {| ai_family := 2; ai_addr := "93.184.216.34"; ai_port := 0 |} ]
  else None.

Definition resolver_world_rev : world :=
  {| euid_root := true; is_macos := false; hosts_file := None;
     hosts_write := OpenFails; getaddrinfo := example_resolver_rev;
     trace := [] |}.

(** ** [room:create] *)

(** ["room-" + secrets.token_hex(3)], with the token that is drawn. *)
Definition new_room_id (token : string) : string := "room-" +:+ token.

Definition on_room_create (token : string) : handler := λ sid data s,
  match room_id_of data with
  | None => (None, s)
  | Some room_id =>
      let room_id :=
        if String.eqb room_id "" then new_room_id token else room_id in
      let s := Sio.join_room sid room_id s in
      let s := Sio.emit "room:created" (room_info room_id s) sid None s in
      let s := Sio.emit "room:members" (room_info room_id s) room_id None s in
      (Some (room_ok room_id s), s)
  end.

(** No room of the server is without a member. *)
Definition no_empty_room (s : Sio.state) : Prop :=
  ∀ room, Sio.rooms s !! room ≠ Some ∅.

(** * Properties *)

(** ** Strings *)

Section string_facts.
Implicit Types (s t p a b : string) (c : ascii).

Lemma str_app_nil_r s : s +:+ "" = s.
Proof. induction s as [|c s IH]; simpl; [done | by rewrite IH]. Qed.

Lemma str_app_assoc a b t : (a +:+ b) +:+ t = a +:+ b +:+ t.
Proof. induction a as [|c a IH]; simpl; [done | by rewrite IH]. Qed.

Lemma str_length_app a b :
  String.length (a +:+ b) = String.length a + String.length b.
Proof. induction a as [|c a IH]; simpl; [done | by rewrite IH]. Qed.

Lemma prefix_nil s : String.prefix "" s = true.
Proof. by destruct s. Qed.

Lemma prefix_cons c p c' s :
  String.prefix (String c p) (String c' s) = true ↔
  c = c' ∧ String.prefix p s = true.
Proof.
  simpl. destruct (ascii_dec c c') as [->|Hne]; [tauto |].
  split; [done | by intros [? _]].
Qed.

Lemma prefix_app p s : String.prefix p (p +:+ s) = true.
Proof.
  induction p as [|c p IH]; simpl; [apply prefix_nil |].
  by destruct (ascii_dec c c).
Qed.

#[local] Arguments String.prefix : simpl never.

(** A string that starts with [p] is [p] followed by the rest. *)
Lemma prefix_split p s :
  String.prefix p s = true → s = p +:+ Py.drop (String.length p) s.
Proof.
  revert s. induction p as [|c p IH]; intros [|c' s] H; try done.
  apply prefix_cons in H as [-> H]. simpl. f_equal. by apply IH.
Qed.

Lemma drop_app p s : Py.drop (String.length p) (p +:+ s) = s.
Proof. induction p as [|c p IH]; simpl; [by destruct s | done]. Qed.

Lemma drop_length_le n s : String.length (Py.drop n s) ≤ String.length s.
Proof.
  revert s. induction n as [|n IH]; intros [|c s]; simpl; try lia.
  specialize (IH s). lia.
Qed.

Lemma prefix_length p s :
  String.prefix p s = true → String.length p ≤ String.length s.
Proof.
  intros H%prefix_split. rewrite H, str_length_app. lia.
Qed.

(** A prefix of [a] is a prefix of [a +:+ b]. *)
Lemma prefix_app_l p a b :
  String.prefix p a = true → String.prefix p (a +:+ b) = true.
Proof.
  intros H%prefix_split. rewrite H, str_app_assoc. apply prefix_app.
Qed.

Lemma contains_nil_r p : p ≠ "" → Py.contains p "" = false.
Proof. by destruct p. Qed.

Lemma contains_cons p c s :
  Py.contains p (String c s)
  = String.prefix p (String c s) || Py.contains p s.
Proof. done. Qed.

Lemma contains_app_l p a b :
  Py.contains p a = true → Py.contains p (a +:+ b) = true.
Proof.
  induction a as [|c a IH]; simpl.
  - destruct p; [by destruct b | done].
  - intros [H|H]%orb_true_iff; apply orb_true_iff.
    + left. by apply (prefix_app_l _ (String c a)).
    + right. by apply IH.
Qed.

Lemma contains_app_r p a b :
  Py.contains p b = true → Py.contains p (a +:+ b) = true.
Proof.
  intros H. induction a as [|c a IH]; simpl; [done |].
  rewrite IH. apply orb_true_r.
Qed.

Lemma after_first_None p s :
  Py.after_first p s = None ↔ Py.contains p s = false.
Proof.
  induction s as [|c s IH]; simpl.
  - by destruct (String.prefix p "").
  - by destruct (String.prefix p (String c s)).
Qed.

Lemma after_first_length p s r :
  Py.after_first p s = Some r →
  String.length r + String.length p ≤ String.length s.
Proof.
  assert (Hhere : ∀ s, String.prefix p s = true →
    String.length (Py.drop (String.length p) s) + String.length p
    ≤ String.length s).
  { intros s' Hp%prefix_split%(f_equal String.length).
    rewrite str_length_app in Hp. lia. }
  induction s as [|c s IH]; cbn [Py.after_first].
  - destruct (String.prefix p "") eqn:Hp; [|done].
    intros [= <-]. by apply Hhere.
  - destruct (String.prefix p (String c s)) eqn:Hp.
    + intros [= <-]. by apply Hhere.
    + intros H%IH. simpl. lia.
Qed.

Lemma count_0 p s : Py.contains p s = false → Py.count p s = 0.
Proof.
  induction s as [|c s IH]; simpl.
  - by destruct (String.prefix p "").
  - intros [-> H]%orb_false_iff. by rewrite IH.
Qed.

End string_facts.

(** ** Trailing white space *)

Section rstrip_facts.
Implicit Types (s t ws : string) (c : ascii).

Lemma rstrip_all_space ws : Py.all_space ws = true → Py.rstrip ws = "".
Proof.
  induction ws as [|c ws IH]; simpl; [done |].
  intros [Hc Hws]%andb_true_iff. by rewrite IH, Hc.
Qed.

Lemma rstrip_app_space s ws :
  Py.all_space ws = true → Py.rstrip (s +:+ ws) = Py.rstrip s.
Proof.
  intros Hws. induction s as [|c s IH]; simpl.
  - by apply rstrip_all_space.
  - by rewrite IH.
Qed.

(** [rstrip] only removes a white-space suffix. *)
Lemma rstrip_spec s :
  ∃ ws, s = Py.rstrip s +:+ ws ∧ Py.all_space ws = true.
Proof.
  induction s as [|c s (ws & Hs & Hws)]; simpl; [by exists "" |].
  destruct (Py.rstrip s) as [|c' r] eqn:Hr.
  - simpl in Hs. subst ws. destruct (Py.isspace c) eqn:Hc.
    + exists (String c s). simpl. by rewrite Hc, Hws.
    + by exists s.
  - exists ws. split; [|done]. simpl. by rewrite Hs at 1.
Qed.

(** What [rstrip] returns does not end in white space. *)
Lemma rstrip_ends s : Py.ends_with_space (Py.rstrip s) = false.
Proof.
  unfold Py.ends_with_space.
  induction s as [|c s IH]; simpl; [done |].
  destruct (Py.rstrip s) as [|c' r] eqn:Hr; [|done].
  destruct (Py.isspace c) eqn:Hc; simpl; by rewrite ?Hc.
Qed.

Lemma rstrip_fixed t : Py.ends_with_space t = false → Py.rstrip t = t.
Proof.
  unfold Py.ends_with_space.
  induction t as [|c t IH]; simpl; [done |].
  destruct t as [|c' t].
  - simpl. by intros ->.
  - intros H. rewrite IH by done. done.
Qed.

Lemma rstrip_idem s : Py.rstrip (Py.rstrip s) = Py.rstrip s.
Proof. apply rstrip_fixed, rstrip_ends. Qed.

Lemma rstrip_prefix_contains p s :
  Py.contains p (Py.rstrip s) = true → Py.contains p s = true.
Proof.
  destruct (rstrip_spec s) as (ws & Hs & _). intros H.
  rewrite Hs. by apply contains_app_l.
Qed.

End rstrip_facts.

(** ** The substitution [re_sub_block] *)

Section sub_block_facts.
Implicit Types (s t rest : string) (c : ascii).

#[local] Arguments String.prefix : simpl never.
#[local] Arguments Py.after_first : simpl never.
#[local] Arguments Py.drop : simpl never.

(** The scan ends within [String.length s] steps: more fuel changes
    nothing. *)
Lemma sub_block_fuel n m s :
  String.length s ≤ n → String.length s ≤ m → sub_block n s = sub_block m s.
Proof.
  revert m s. induction n as [|n IH]; intros m s Hn Hm.
  - destruct s; simpl in Hn; [by destruct m | lia].
  - destruct m as [|m]; [destruct s; simpl in Hm; [done | lia] |].
    destruct s as [|c s]; [done |]. cbn [String.length] in Hn, Hm.
    cbn [sub_block].
    destruct (Py.startswith _ _) eqn:Hst.
    + destruct (Py.after_first _ _) as [rest|] eqn:Hend.
      * apply after_first_length in Hend.
        pose proof (drop_length_le (String.length HOSTS_TAG_START)
                      (String c s)) as Hd.
        change (String.length HOSTS_TAG_END) with 34 in Hend.
        cbn [String.length] in Hd. apply IH; lia.
      * f_equal. apply IH; lia.
    + f_equal. apply IH; lia.
Qed.

Lemma re_sub_block_nil : re_sub_block "" = "".
Proof. done. Qed.

(** One step of the scan. *)
Lemma re_sub_block_cons c s :
  re_sub_block (String c s)
  = if Py.startswith (String c s) HOSTS_TAG_START then
      match Py.after_first HOSTS_TAG_END
              (Py.drop (String.length HOSTS_TAG_START) (String c s)) with
      | Some rest => re_sub_block rest
      | None => String c (re_sub_block s)
      end
    else String c (re_sub_block s).
Proof.
  unfold re_sub_block at 1. cbn [String.length sub_block].
  destruct (Py.startswith _ _) eqn:Hst; [|done].
  destruct (Py.after_first _ _) as [rest|] eqn:Hend; [|done].
  apply after_first_length in Hend.
  pose proof (drop_length_le (String.length HOSTS_TAG_START)
                (String c s)) as Hd.
  change (String.length HOSTS_TAG_END) with 34 in Hend.
  cbn [String.length] in Hd. apply sub_block_fuel; lia.
Qed.

(** Without a start marker that an end marker follows, nothing is
    deleted. *)
Lemma re_sub_block_no_block s : has_block s = false → re_sub_block s = s.
Proof.
  induction s as [|c s IH]; [done |].
  cbn [has_block]. intros [Hhere Hlater]%orb_false_iff.
  rewrite re_sub_block_cons, (IH Hlater).
  destruct (Py.startswith _ _); [|done].
  apply after_first_None in Hhere. by rewrite Hhere.
Qed.

Lemma has_block_no_start s :
  Py.contains HOSTS_TAG_START s = false → has_block s = false.
Proof.
  induction s as [|c s IH]; [done |].
  rewrite contains_cons. intros [Hhere Hlater]%orb_false_iff.
  cbn [has_block]. unfold Py.startswith. by rewrite Hhere, IH.
Qed.

End sub_block_facts.

(** ** The two markers *)

Section marker_facts.
Implicit Types (s t p a b body rest : string) (c : ascii).

#[local] Arguments String.prefix : simpl never.

Lemma prefix_get p s i c :
  String.prefix p s = true → String.get i p = Some c → String.get i s = Some c.
Proof.
  revert s i. induction p as [|c' p IH]; intros [|c'' s] i Hp; try done.
  apply prefix_cons in Hp as [-> Hp]. destruct i as [|i]; simpl; [done |].
  by apply IH.
Qed.

(** A pattern without a newline cannot match across one. *)
Lemma prefix_app_nl p a b :
  Py.contains Py.nl p = false →
  String.prefix p (a +:+ Py.nl +:+ b) = true → String.prefix p a = true.
Proof.
  revert p. induction a as [|x a IH]; intros [|c p] Hnl; try done.
  - unfold Py.nl in *. cbn [String.append]. intros [-> _]%prefix_cons.
    rewrite contains_cons in Hnl. apply orb_false_iff in Hnl as [Hnl _].
    rewrite (proj2 (prefix_cons _ _ _ _)) in Hnl; [done |].
    split; [done | apply prefix_nil].
  - cbn [String.append]. intros [-> Hp]%prefix_cons.
    apply prefix_cons. split; [done |].
    apply IH; [|done].
    rewrite contains_cons in Hnl. by apply orb_false_iff in Hnl as [_ ?].
Qed.

Lemma prefix_app_nl_eq p a b :
  Py.contains Py.nl p = false →
  String.prefix p (a +:+ Py.nl +:+ b) = String.prefix p a.
Proof.
  intros Hnl. destruct (String.prefix p a) eqn:Ha.
  - by apply prefix_app_l.
  - destruct (String.prefix p (a +:+ _)) eqn:Hab; [|done].
    apply prefix_app_nl in Hab; congruence.
Qed.

Lemma contains_app_nl p a b :
  Py.contains Py.nl p = false → p ≠ "" →
  Py.contains p (a +:+ Py.nl +:+ b) = Py.contains p a || Py.contains p b.
Proof.
  intros Hnl Hp. induction a as [|x a IH].
  - rewrite contains_nil_r by done. cbn [String.append Py.nl].
    rewrite contains_cons.
    change (String "010" b) with ("" +:+ Py.nl +:+ b).
    rewrite prefix_app_nl_eq by done. by destruct p.
  - cbn [String.append]. rewrite !contains_cons, IH, orb_assoc.
    change (String x (a +:+ Py.nl +:+ b)) with (String x a +:+ Py.nl +:+ b).
    by rewrite prefix_app_nl_eq.
Qed.

Lemma count_app_nl p a b :
  Py.contains Py.nl p = false → p ≠ "" →
  Py.count p (a +:+ Py.nl +:+ b) = Py.count p a + Py.count p b.
Proof.
  intros Hnl Hp. induction a as [|x a IH].
  - cbn [String.append Py.nl Py.count].
    change (String "010" b) with ("" +:+ Py.nl +:+ b).
    rewrite prefix_app_nl_eq by done. by destruct p.
  - cbn [String.append Py.count]. rewrite IH.
    change (String x (a +:+ Py.nl +:+ b)) with (String x a +:+ Py.nl +:+ b).
    rewrite prefix_app_nl_eq by done. lia.
Qed.

Lemma after_first_app_nl p a b :
  Py.contains Py.nl p = false → p ≠ "" → Py.contains p a = false →
  Py.after_first p (a +:+ Py.nl +:+ b) = Py.after_first p b.
Proof.
  intros Hnl Hp. induction a as [|x a IH]; intros Ha.
  - cbn [String.append Py.nl Py.after_first].
    change (String "010" b) with ("" +:+ Py.nl +:+ b).
    rewrite prefix_app_nl_eq by done. by destruct p.
  - rewrite contains_cons in Ha. apply orb_false_iff in Ha as [Hx Ha].
    cbn [String.append Py.after_first].
    change (String x (a +:+ Py.nl +:+ b)) with (String x a +:+ Py.nl +:+ b).
    rewrite prefix_app_nl_eq, Hx by done. by apply IH.
Qed.

(** Both markers start with [# === ] and have the capital [U] next. *)
Lemma marker_U m : marker m → String.get 6 m = Some "U"%char.
Proof. by intros [-> | ->]. Qed.

Lemma marker_no_nl m : marker m → Py.contains Py.nl m = false.
Proof. by intros [-> | ->]; vm_compute. Qed.

Lemma marker_nonempty m : marker m → m ≠ "".
Proof. by intros [-> | ->]. Qed.

(** A marker cannot start inside text without capital letters that a
    marker follows: its [U] would fall on a lower-case character or on
    the [# === ] of the following marker. *)
Lemma marker_not_in_lower m body rest :
  marker m → Py.no_upper body = true → body ≠ "" →
  String.prefix m (body +:+ "# === " +:+ rest) = false.
Proof.
  intros Hm Hbody Hne.
  destruct (String.prefix m _) eqn:Hp; [|done]. exfalso.
  pose proof (prefix_get _ _ 6 _ Hp (marker_U m Hm)) as Hget.
  destruct body as [|c1 [|c2 [|c3 [|c4 [|c5 [|c6 [|c7 body]]]]]]];
    simpl in Hget; try done.
  injection Hget as ->. simpl in Hbody.
  repeat (apply andb_true_iff in Hbody as [_ Hbody]). done.
Qed.

End marker_facts.

(** ** The loops of [expand_domains] *)

Section loops.
Implicit Types (d c x y : string) (l out ds : list string)
  (seen : gset string).

Lemma expand_step_app out d : expand_step out d = out ++ expand_one d.
Proof.
  unfold expand_step, expand_one, with_www.
  destruct (canonical d) as [c|]; [|by rewrite app_nil_r].
  destruct (Py.startswith c "www."); simpl; [done |].
  by rewrite <-(assoc_L (++)).
Qed.

Lemma foldl_expand_step out ds :
  foldl expand_step out ds = out ++ flat_map expand_one ds.
Proof.
  revert out. induction ds as [|d ds IH]; intros out; simpl.
  - by rewrite app_nil_r.
  - by rewrite IH, expand_step_app, <-(assoc_L (++)).
Qed.

Lemma expand_out_flat_map ds : expand_out ds = flat_map expand_one ds.
Proof. apply foldl_expand_step. Qed.

Lemma foldl_uniq_step seen uniq l :
  (foldl uniq_step (seen, uniq) l).2 = uniq ++ dedup seen l.
Proof.
  revert seen uniq. induction l as [|d l IH]; intros seen uniq; simpl.
  - by rewrite app_nil_r.
  - unfold uniq_step at 2. simpl. destruct (decide (d ∈ seen)); [done |].
    by rewrite IH, <-(assoc_L (++)).
Qed.

(** [expand_domains] is the first-occurrence filter of the expanded
    list. *)
Lemma expand_domains_dedup ds :
  expand_domains ds = dedup ∅ (flat_map expand_one ds).
Proof.
  unfold expand_domains. by rewrite foldl_uniq_step, expand_out_flat_map.
Qed.

Lemma elem_of_dedup seen l x : x ∈ dedup seen l ↔ x ∈ l ∧ x ∉ seen.
Proof.
  revert seen. induction l as [|d l IH]; intros seen; simpl.
  - set_solver.
  - destruct (decide (d ∈ seen)).
    + rewrite IH. set_solver.
    + rewrite elem_of_cons, IH. destruct (decide (x = d)); set_solver.
Qed.

Lemma NoDup_dedup seen l : NoDup (dedup seen l).
Proof.
  revert seen. induction l as [|d l IH]; intros seen; simpl.
  - constructor.
  - destruct (decide (d ∈ seen)); [done |].
    constructor; [|done]. rewrite elem_of_dedup. set_solver.
Qed.

Lemma dedup_app seen l1 l2 :
  dedup seen (l1 ++ l2)
  = dedup seen l1 ++ dedup (list_to_set l1 ∪ seen) l2.
Proof.
  revert seen. induction l1 as [|d l1 IH]; intros seen; simpl.
  - by rewrite (left_id_L ∅ (∪)).
  - destruct (decide (d ∈ seen)).
    + rewrite IH. do 2 f_equal. set_solver.
    + simpl. rewrite IH. do 3 f_equal. set_solver.
Qed.


End loops.

(** ** The text of the block *)

Section block_facts.
Implicit Types (s t d c : string) (ds : list string).

Lemma concat_cons_ne sep s (l : list string) :
  l ≠ [] → String.concat sep (s :: l) = s +:+ sep +:+ String.concat sep l.
Proof. by destruct l. Qed.

Lemma snoc_ne_nil (l : list string) s : l ++ [s] ≠ [].
Proof. by destruct l. Qed.

Lemma block_lines_flat_map ds :
  block_lines ds
  = HOSTS_TAG_START
    :: flat_map (λ d, ["127.0.0.1 " +:+ d; "::1 " +:+ d]) ds
    ++ [HOSTS_TAG_END].
Proof.
  unfold block_lines.
  assert (∀ acc,
    foldl (λ lines d, (lines ++ ["127.0.0.1 " +:+ d]) ++ ["::1 " +:+ d])
      acc ds
    = acc ++ flat_map (λ d, ["127.0.0.1 " +:+ d; "::1 " +:+ d]) ds) as H.
  { induction ds as [|d ds IH]; intros acc; simpl.
    - by rewrite app_nil_r.
    - rewrite IH, <-!(assoc_L (++)). done. }
  by rewrite H.
Qed.

(** ["\n".join(lines)] is the start marker, the body and the end
    marker. *)
Lemma concat_block_lines ds :
  String.concat Py.nl (block_lines ds)
  = HOSTS_TAG_START +:+ block_body ds +:+ HOSTS_TAG_END.
Proof.
  rewrite block_lines_flat_map, concat_cons_ne by apply snoc_ne_nil.
  f_equal. induction ds as [|d ds IH].
  - done.
  - cbn [flat_map app block_body].
    rewrite !concat_cons_ne by (done || apply snoc_ne_nil).
    rewrite IH, !str_app_assoc. done.
Qed.

Lemma no_upper_app s t :
  Py.no_upper (s +:+ t) = Py.no_upper s && Py.no_upper t.
Proof.
  induction s as [|c s IH]; simpl; [done |].
  by rewrite IH, andb_assoc.
Qed.

Lemma lower_char_no_upper (c : ascii) :
  Py.isupper_ascii (Py.lower_char c) = false.
Proof. by destruct c as [[] [] [] [] [] [] [] []]. Qed.

Lemma no_upper_lower s : Py.no_upper (Py.lower s) = true.
Proof.
  induction s as [|c s IH]; simpl; [done |].
  by rewrite lower_char_no_upper, IH.
Qed.

Lemma no_upper_drop n s :
  Py.no_upper s = true → Py.no_upper (Py.drop n s) = true.
Proof.
  revert s. induction n as [|n IH]; intros [|c s]; simpl; try done.
  intros [_ H]%andb_true_iff. by apply IH.
Qed.

Lemma no_upper_split_head (sep : ascii) s :
  Py.no_upper s = true → Py.no_upper (Py.split_head sep s) = true.
Proof.
  induction s as [|c s IH]; simpl; [done |].
  intros [Hc H]%andb_true_iff. destruct (Ascii.eqb c sep); simpl; [done |].
  by rewrite Hc, IH.
Qed.

Lemma no_upper_re_sub_scheme s :
  Py.no_upper s = true → Py.no_upper (re_sub_scheme s) = true.
Proof.
  intros H. unfold re_sub_scheme.
  repeat case_match; auto using no_upper_drop.
Qed.

Lemma canonical_no_upper d c :
  canonical d = Some c → Py.no_upper c = true.
Proof.
  unfold canonical. destruct (String.eqb _ _); [done |]. intros [= <-].
  apply no_upper_split_head.
  destruct (_ || _); [apply no_upper_re_sub_scheme |]; apply no_upper_lower.
Qed.

Lemma expand_one_no_upper d x :
  x ∈ expand_one d → Py.no_upper x = true.
Proof.
  unfold expand_one, with_www.
  destruct (canonical d) as [c|] eqn:Hc; [|by intros ?%elem_of_nil].
  apply canonical_no_upper in Hc.
  destruct (Py.startswith c "www.").
  - by intros ->%list_elem_of_singleton.
  - intros [-> | ->%list_elem_of_singleton]%elem_of_cons; [done |].
    by rewrite no_upper_app, Hc.
Qed.

(** No entry of the normalised list has a capital letter. *)
Lemma expand_domains_no_upper ds x :
  x ∈ expand_domains ds → Py.no_upper x = true.
Proof.
  rewrite expand_domains_dedup, elem_of_dedup.
  intros [(d & _ & Hx)%list_elem_of_In%in_flat_map _].
  by apply (expand_one_no_upper d), list_elem_of_In.
Qed.

Lemma block_body_no_upper ds :
  (∀ x, x ∈ ds → Py.no_upper x = true) →
  Py.no_upper (block_body ds) = true.
Proof.
  induction ds as [|d ds IH]; intros H; [done |].
  cbn [block_body]. rewrite !no_upper_app.
  rewrite (H d), IH; [done | |].
  - intros x Hx. apply H, elem_of_cons. by right.
  - apply elem_of_cons. by left.
Qed.

Lemma block_body_nl ds : ∃ t, block_body ds = Py.nl +:+ t.
Proof. destruct ds; simpl; eauto. Qed.

End block_facts.

(** ** Stripping a document that ends with a freshly written block *)

Section strip_block.
Implicit Types (s t X K R T body rest : string) (c : ascii).

#[local] Arguments String.prefix : simpl never.

Lemma marker_head m : marker m → ∃ m', m = "# === " +:+ m'.
Proof. intros [-> | ->]; eauto. Qed.

(** No marker starts inside lower-case text that a marker follows. *)
Lemma lower_no_marker m m' body rest :
  marker m → marker m' → Py.no_upper body = true → body ≠ "" →
  String.prefix m (body +:+ m' +:+ rest) = false.
Proof.
  intros Hm [m'' ->]%marker_head Hbody Hne.
  rewrite str_app_assoc. by apply marker_not_in_lower.
Qed.

Lemma after_first_lower m m' body rest :
  marker m → marker m' → Py.no_upper body = true →
  Py.after_first m (body +:+ m' +:+ rest) = Py.after_first m (m' +:+ rest).
Proof.
  intros Hm Hm'. induction body as [|c body IH]; [done |].
  intros Hbody. cbn [String.append Py.after_first].
  change (String c (body +:+ m' +:+ rest))
    with (String c body +:+ m' +:+ rest).
  rewrite lower_no_marker by done.
  simpl in Hbody. apply andb_true_iff in Hbody as [_ Hbody]. by apply IH.
Qed.

Lemma count_lower m m' body rest :
  marker m → marker m' → Py.no_upper body = true →
  Py.count m (body +:+ m' +:+ rest) = Py.count m (m' +:+ rest).
Proof.
  intros Hm Hm'. induction body as [|c body IH]; [done |].
  intros Hbody. cbn [String.append Py.count].
  change (String c (body +:+ m' +:+ rest))
    with (String c body +:+ m' +:+ rest).
  rewrite lower_no_marker by done.
  simpl in Hbody. apply andb_true_iff in Hbody as [_ Hbody]. by rewrite IH.
Qed.

(** Scanning past a marker, by computation on its characters. *)
Lemma after_first_END_START rest :
  Py.after_first HOSTS_TAG_END (HOSTS_TAG_START +:+ rest)
  = Py.after_first HOSTS_TAG_END rest.
Proof. reflexivity. Qed.

Lemma after_first_here p rest :
  Py.after_first p (p +:+ rest) = Some rest.
Proof.
  destruct p as [|c p]; [by destruct rest |].
  cbn [String.append Py.after_first].
  - change (String c (p +:+ rest)) with (String c p +:+ rest).
    by rewrite prefix_app, drop_app.
Qed.

Lemma count_here c p rest :
  Py.count (String c p) (String c p +:+ rest)
  = S (Py.count (String c p) (p +:+ rest)).
Proof.
  cbn [String.append Py.count].
  change (String c (p +:+ rest)) with (String c p +:+ rest).
  by rewrite prefix_app.
Qed.

Lemma count_START_START rest :
  Py.count HOSTS_TAG_START (HOSTS_TAG_START +:+ rest)
  = S (Py.count HOSTS_TAG_START rest).
Proof. unfold HOSTS_TAG_START. by rewrite count_here. Qed.

Lemma count_START_END rest :
  Py.count HOSTS_TAG_START (HOSTS_TAG_END +:+ rest)
  = Py.count HOSTS_TAG_START rest.
Proof. reflexivity. Qed.

Lemma count_END_START rest :
  Py.count HOSTS_TAG_END (HOSTS_TAG_START +:+ rest)
  = Py.count HOSTS_TAG_END rest.
Proof. reflexivity. Qed.

Lemma count_END_END rest :
  Py.count HOSTS_TAG_END (HOSTS_TAG_END +:+ rest)
  = S (Py.count HOSTS_TAG_END rest).
Proof. unfold HOSTS_TAG_END. by rewrite count_here. Qed.

(** A written block holds each marker once. *)
Lemma count_block body T :
  Py.no_upper body = true →
  Py.count HOSTS_TAG_START
    (HOSTS_TAG_START +:+ body +:+ HOSTS_TAG_END +:+ T)
  = S (Py.count HOSTS_TAG_START T)
  ∧ Py.count HOSTS_TAG_END
      (HOSTS_TAG_START +:+ body +:+ HOSTS_TAG_END +:+ T)
    = S (Py.count HOSTS_TAG_END T).
Proof.
  intros Hbody. split.
  - rewrite count_START_START, count_lower, count_START_END;
      unfold marker; auto.
  - rewrite count_END_START, count_lower, count_END_END;
      unfold marker; auto.
Qed.

Lemma re_sub_block_start s rest :
  Py.startswith s HOSTS_TAG_START = true →
  Py.after_first HOSTS_TAG_END (Py.drop (String.length HOSTS_TAG_START) s)
  = Some rest →
  re_sub_block s = re_sub_block rest.
Proof.
  destruct s as [|c s]; [done |]. intros Hst Hend.
  by rewrite re_sub_block_cons, Hst, Hend.
Qed.

(** The substitution deletes a written block as a whole. *)
Lemma re_sub_block_written body T :
  Py.no_upper body = true →
  re_sub_block (HOSTS_TAG_START +:+ body +:+ HOSTS_TAG_END +:+ T)
  = re_sub_block T.
Proof.
  intros Hbody. apply re_sub_block_start.
  - apply prefix_app.
  - rewrite drop_app, after_first_lower by (unfold marker; auto).
    apply after_first_here.
Qed.

End strip_block.

Section strip_applied.
Implicit Types (s t X K R T body rest : string) (c : ascii).

#[local] Arguments String.prefix : simpl never.

Lemma START_no_nl : Py.contains Py.nl HOSTS_TAG_START = false.
Proof. apply marker_no_nl. by left. Qed.

Lemma END_no_nl : Py.contains Py.nl HOSTS_TAG_END = false.
Proof. apply marker_no_nl. by right. Qed.

Lemma contains_snoc_nl m X :
  marker m → Py.contains m (X +:+ Py.nl) = Py.contains m X.
Proof.
  intros Hm. rewrite <-(str_app_nil_r Py.nl).
  rewrite contains_app_nl
    by auto using marker_no_nl, marker_nonempty.
  rewrite contains_nil_r by auto using marker_nonempty. apply orb_false_r.
Qed.

(** The scan of [X], a blank line and a written block: what is kept is
    a prefix [K] of [X] and the newline, cut at the first start marker
    left in [X] if there is one. *)
Lemma re_sub_block_before_written X body T :
  Py.contains HOSTS_TAG_END X = false → Py.no_upper body = true →
  ∃ K R,
    re_sub_block
      (X +:+ Py.nl +:+ HOSTS_TAG_START +:+ body +:+ HOSTS_TAG_END +:+ T)
    = K +:+ re_sub_block T
    ∧ X +:+ Py.nl = K +:+ R
    ∧ Py.contains HOSTS_TAG_START K = false
    ∧ (Py.contains HOSTS_TAG_START X = false → K = X +:+ Py.nl).
Proof.
  intros HX Hbody. induction X as [|c X IH].
  - exists Py.nl, "". unfold Py.nl at 1. cbn [String.append].
    rewrite re_sub_block_cons.
    destruct (Py.startswith _ _) eqn:Hst.
    { unfold Py.startswith, HOSTS_TAG_START in Hst.
      by apply prefix_cons in Hst as [[=] _]. }
    by rewrite re_sub_block_written.
  - rewrite contains_cons in HX. apply orb_false_iff in HX as [HcX HX].
    set (W := HOSTS_TAG_START +:+ body +:+ HOSTS_TAG_END +:+ T) in *.
    destruct (String.prefix HOSTS_TAG_START (String c X)) eqn:Hst.
    + exists "", (String c X +:+ Py.nl). split; [|split; [done |split]].
      * apply re_sub_block_start.
        { unfold Py.startswith. rewrite prefix_app_nl_eq; [done |].
          apply START_no_nl. }
        apply prefix_split in Hst. rewrite Hst, str_app_assoc, drop_app.
        rewrite after_first_app_nl; first last.
        { destruct (Py.contains HOSTS_TAG_END (Py.drop _ _)) eqn:Hd;
            [|done].
          apply (contains_app_r _ HOSTS_TAG_START) in Hd.
          rewrite <-Hst, contains_cons, HcX, HX in Hd. done. }
        { done. }
        { apply END_no_nl. }
        unfold W. rewrite after_first_END_START, after_first_lower
          by (unfold marker; auto).
        apply after_first_here.
      * done.
      * rewrite contains_cons, Hst. done.
    + destruct (IH HX) as (K & R & Hsub & HK & HKs & HKeq).
      exists (String c K), R. split; [|split; [|split]].
      * cbn [String.append]. rewrite re_sub_block_cons.
        change (String c (X +:+ Py.nl +:+ W))
          with (String c X +:+ Py.nl +:+ W).
        unfold Py.startswith.
        rewrite prefix_app_nl_eq, Hst by apply START_no_nl.
        cbn [String.append]. by rewrite Hsub.
      * cbn [String.append]. by rewrite HK.
      * rewrite contains_cons, HKs, orb_false_r.
        destruct (String.prefix _ (String c K)) eqn:HcK; [|done].
        apply (prefix_app_l _ _ R) in HcK.
        change (String c K +:+ R) with (String c (K +:+ R)) in HcK.
        rewrite <-HK, <-(str_app_nil_r Py.nl) in HcK.
        change (String c (X +:+ Py.nl +:+ ""))
          with (String c X +:+ Py.nl +:+ "") in HcK.
        rewrite prefix_app_nl_eq in HcK by apply START_no_nl. congruence.
      * rewrite contains_cons, Hst. cbn [orb String.append].
        intros HXs. by rewrite HKeq.
Qed.

(** Stripping the document [A], blank line, a block with a lower-case
    body, newline: the block goes, and with it whatever followed a start
    marker left in [A]; no marker remains. *)
Lemma strip_written_body A body :
  Py.contains HOSTS_TAG_END A = false → Py.no_upper body = true →
  ∃ A2,
    strip_ultra_block_section
      (A +:+ Py.nl +:+ HOSTS_TAG_START +:+ body +:+ HOSTS_TAG_END
       +:+ Py.nl)
    = A2
    ∧ Py.contains HOSTS_TAG_START A2 = false
    ∧ Py.contains HOSTS_TAG_END A2 = false
    ∧ (Py.contains HOSTS_TAG_START A = false → A2 = Py.rstrip A +:+ Py.nl).
Proof.
  intros HA Hbody.
  destruct (re_sub_block_before_written A body Py.nl HA)
    as (K & R & Hsub & HK & HKs & HKeq); [done |].
  unfold strip_ultra_block_section. rewrite Hsub.
  change (re_sub_block Py.nl) with Py.nl.
  rewrite rstrip_app_space by done.
  eexists. split; [done |]. split; [|split].
  - rewrite contains_snoc_nl by by left.
    destruct (Py.contains _ (Py.rstrip K)) eqn:H; [|done].
    apply rstrip_prefix_contains in H. congruence.
  - rewrite contains_snoc_nl by by right.
    destruct (Py.contains _ (Py.rstrip K)) eqn:H; [|done].
    apply rstrip_prefix_contains, (contains_app_l _ _ R) in H.
    rewrite <-HK, contains_snoc_nl in H by by right. congruence.
  - intros HAs. rewrite (HKeq HAs). by rewrite rstrip_app_space.
Qed.

(** The same for the block that Apply writes for the domains [ds]. *)
Lemma strip_written A ds :
  Py.contains HOSTS_TAG_END A = false →
  (∀ d, d ∈ ds → Py.no_upper d = true) →
  ∃ A2,
    strip_ultra_block_section
      (A +:+ Py.nl +:+ String.concat Py.nl (block_lines ds) +:+ Py.nl)
    = A2
    ∧ Py.contains HOSTS_TAG_START A2 = false
    ∧ Py.contains HOSTS_TAG_END A2 = false
    ∧ (Py.contains HOSTS_TAG_START A = false → A2 = Py.rstrip A +:+ Py.nl).
Proof.
  intros HA Hds. rewrite concat_block_lines, !str_app_assoc.
  apply strip_written_body; [done | by apply block_body_no_upper].
Qed.

Lemma strip_ends_nl s : ∃ t, strip_ultra_block_section s = t +:+ Py.nl ∧ Py.rstrip t = t.
Proof. eexists. split; [done |]. apply rstrip_idem. Qed.

Lemma rstrip_strip s :
  Py.rstrip (strip_ultra_block_section s) +:+ Py.nl
  = strip_ultra_block_section s.
Proof.
  unfold strip_ultra_block_section.
  by rewrite rstrip_app_space, rstrip_idem.
Qed.

End strip_applied.

(** ** Apply and Clear on the hosts file *)

Section hosts_block.
Implicit Types (w : world) (ds : list string) (s t A : string).

Lemma re_sub_block_app_nl X W :
  Py.contains HOSTS_TAG_START X = false →
  re_sub_block (X +:+ Py.nl +:+ W) = X +:+ Py.nl +:+ re_sub_block W.
Proof.
  induction X as [|c X IH]; intros HX.
  - unfold Py.nl. cbn [String.append]. rewrite re_sub_block_cons.
    destruct (Py.startswith _ _) eqn:Hst; [|done].
    unfold Py.startswith, HOSTS_TAG_START in Hst.
    by apply prefix_cons in Hst as [[=] _].
  - rewrite contains_cons in HX. apply orb_false_iff in HX as [Hc HX].
    cbn [String.append]. rewrite re_sub_block_cons.
    change (String c (X +:+ Py.nl +:+ W)) with (String c X +:+ Py.nl +:+ W).
    unfold Py.startswith. rewrite prefix_app_nl_eq, Hc by apply START_no_nl.
    cbn [String.append]. by rewrite IH.
Qed.

(** Stripping right after a block was written below a document without
    start marker gives that document back, up to its trailing white
    space. *)
Lemma strip_written_no_start_body A body :
  Py.contains HOSTS_TAG_START A = false → Py.no_upper body = true →
  strip_ultra_block_section
    (A +:+ Py.nl +:+ HOSTS_TAG_START +:+ body +:+ HOSTS_TAG_END +:+ Py.nl)
  = Py.rstrip A +:+ Py.nl.
Proof.
  intros HA Hbody. unfold strip_ultra_block_section.
  rewrite re_sub_block_app_nl by done.
  rewrite re_sub_block_written by done.
  change (re_sub_block Py.nl) with Py.nl.
  by rewrite (rstrip_app_space A (Py.nl +:+ Py.nl)).
Qed.

Lemma strip_written_no_start A ds :
  Py.contains HOSTS_TAG_START A = false →
  (∀ d, d ∈ ds → Py.no_upper d = true) →
  strip_ultra_block_section
    (A +:+ Py.nl +:+ String.concat Py.nl (block_lines ds) +:+ Py.nl)
  = Py.rstrip A +:+ Py.nl.
Proof.
  intros HA Hds. rewrite concat_block_lines, !str_app_assoc.
  apply strip_written_no_start_body; [done | by apply block_body_no_upper].
Qed.

Lemma strip_no_start s :
  Py.contains HOSTS_TAG_START (strip_ultra_block_section s) = false →
  Py.contains HOSTS_TAG_START (Py.rstrip (re_sub_block s)) = false.
Proof.
  unfold strip_ultra_block_section. by rewrite contains_snoc_nl by by left.
Qed.

Lemma apply_hosts_block_ok ds w :
  euid_root w = true → hosts_writable w = true →
  ∃ w', apply_hosts_block ds w = ((true, None), w')
    ∧ hosts_file w' = Some (applied ds (hosts_text w))
    ∧ euid_root w' = true ∧ hosts_writable w' = true.
Proof.
  intros Hroot Hwr.
  assert (hosts_write w = WriteOk) as Hw.
  { unfold hosts_writable in Hwr. by destruct (hosts_write w). }
  unfold apply_hosts_block, bind, require_root, read_hosts, write_hosts,
    flush_dns, ret.
  rewrite Hroot. simpl. rewrite Hw. simpl.
  destruct (is_macos w); simpl; unfold hosts_writable; simpl; rewrite ?Hw;
    eauto.
Qed.

Lemma clear_hosts_block_ok w :
  euid_root w = true → hosts_writable w = true →
  ∃ w', clear_hosts_block w = ((true, None), w')
    ∧ hosts_file w' = Some (strip_ultra_block_section (hosts_text w))
    ∧ euid_root w' = true ∧ hosts_writable w' = true.
Proof.
  intros Hroot Hwr.
  assert (hosts_write w = WriteOk) as Hw.
  { unfold hosts_writable in Hwr. by destruct (hosts_write w). }
  unfold clear_hosts_block, bind, require_root, read_hosts, write_hosts,
    flush_dns, ret.
  rewrite Hroot. simpl. rewrite Hw. simpl.
  destruct (is_macos w); simpl; unfold hosts_writable; simpl; rewrite ?Hw;
    eauto.
Qed.

End hosts_block.

(** ** Reading in text mode *)

Section text_mode.
Implicit Types (w : world) (ds : list string) (s t a b : string) (c : ascii).

Lemma universal_newlines_cons c s :
  Py.universal_newlines (String c s)
  = if Ascii.eqb c Py.cr then
      match s with
      | String c' _ =>
          if Ascii.eqb c' Py.lf then Py.universal_newlines s
          else String Py.lf (Py.universal_newlines s)
      | EmptyString => String Py.lf EmptyString
      end
    else String c (Py.universal_newlines s).
Proof. done. Qed.

Lemma no_cr_cons c s :
  Py.no_cr (String c s) = negb (Ascii.eqb c Py.cr) && Py.no_cr s.
Proof. done. Qed.

Lemma no_cr_app a b : Py.no_cr (a +:+ b) = Py.no_cr a && Py.no_cr b.
Proof.
  induction a as [|c a IH]; [done |].
  cbn [String.append]. rewrite !no_cr_cons, IH. by rewrite andb_assoc.
Qed.

(** The text read holds no carriage return. *)
Lemma universal_newlines_no_cr s :
  Py.no_cr (Py.universal_newlines s) = true.
Proof.
  induction s as [|c s IH]; [done |].
  rewrite universal_newlines_cons.
  destruct (Ascii.eqb c Py.cr) eqn:Hc.
  - destruct s as [|c' s']; [done |].
    destruct (Ascii.eqb c' Py.lf); [done |]. by rewrite no_cr_cons, IH.
  - by rewrite no_cr_cons, Hc, IH.
Qed.

(** A file without carriage return is read as it is. *)
Lemma universal_newlines_fixed s :
  Py.no_cr s = true → Py.universal_newlines s = s.
Proof.
  induction s as [|c s IH]; [done |].
  rewrite no_cr_cons. intros [Hc Hs]%andb_true_iff.
  apply negb_true_iff in Hc.
  by rewrite universal_newlines_cons, Hc, IH.
Qed.

Lemma universal_newlines_app_no_cr a b :
  Py.no_cr a = true →
  Py.universal_newlines (a +:+ b) = a +:+ Py.universal_newlines b.
Proof.
  induction a as [|c a IH]; [done |].
  rewrite no_cr_cons. intros [Hc Ha]%andb_true_iff.
  apply negb_true_iff in Hc. cbn [String.append].
  by rewrite universal_newlines_cons, Hc, IH.
Qed.

(** A line end of the file does not reach over a character that is no
    line feed. *)
Lemma universal_newlines_app_cons a c b :
  Ascii.eqb c Py.lf = false →
  Py.universal_newlines (a +:+ String c b)
  = Py.universal_newlines a +:+ Py.universal_newlines (String c b).
Proof.
  intros Hc. induction a as [|x a IH]; [done |].
  cbn [String.append].
  rewrite (universal_newlines_cons x), (universal_newlines_cons x a).
  destruct (Ascii.eqb x Py.cr).
  - destruct a as [|y a'].
    + cbn [String.append]. by rewrite Hc.
    + cbn [String.append] in *. rewrite IH.
      by destruct (Ascii.eqb y Py.lf).
  - cbn [String.append]. by rewrite IH.
Qed.

Lemma universal_newlines_no_upper s :
  Py.no_upper s = true → Py.no_upper (Py.universal_newlines s) = true.
Proof.
  induction s as [|c s IH]; [done |].
  cbn [Py.no_upper]. intros [Hc Hs]%andb_true_iff.
  rewrite universal_newlines_cons.
  destruct (Ascii.eqb c Py.cr).
  - destruct s as [|c' s']; [done |].
    destruct (Ascii.eqb c' Py.lf); [by apply IH |].
    cbn [Py.no_upper]. by rewrite IH.
  - cbn [Py.no_upper]. by rewrite Hc, IH.
Qed.

Lemma no_cr_rstrip s : Py.no_cr s = true → Py.no_cr (Py.rstrip s) = true.
Proof.
  destruct (rstrip_spec s) as (ws & Hs & _). intros H.
  rewrite Hs, no_cr_app in H. by apply andb_true_iff in H as [? _].
Qed.

Lemma no_cr_drop n s : Py.no_cr s = true → Py.no_cr (Py.drop n s) = true.
Proof.
  revert s. induction n as [|n IH]; intros [|c s]; try done.
  rewrite no_cr_cons. intros [_ Hs]%andb_true_iff. by apply IH.
Qed.

Lemma no_cr_after_first p s r :
  Py.after_first p s = Some r → Py.no_cr s = true → Py.no_cr r = true.
Proof.
  induction s as [|c s IH]; cbn [Py.after_first].
  - destruct (String.prefix p ""); [|done].
    intros [= <-] _. by apply no_cr_drop.
  - destruct (String.prefix p (String c s)).
    + intros [= <-] H. by apply no_cr_drop.
    + intros Hr. rewrite no_cr_cons. intros [_ Hs]%andb_true_iff. auto.
Qed.

Lemma no_cr_sub_block n s :
  Py.no_cr s = true → Py.no_cr (sub_block n s) = true.
Proof.
  revert s. induction n as [|n IH]; intros s Hs; [done |].
  destruct s as [|c s]; [done |]. cbn [sub_block].
  pose proof Hs as Hcs. rewrite no_cr_cons in Hcs.
  apply andb_true_iff in Hcs as [Hc Hs'].
  destruct (Py.startswith _ _).
  - destruct (Py.after_first _ _) as [rest|] eqn:Hrest.
    + apply IH. apply (no_cr_after_first _ _ _ Hrest).
      by apply no_cr_drop.
    + by rewrite no_cr_cons, Hc, IH.
  - by rewrite no_cr_cons, Hc, IH.
Qed.

(** Stripping brings no carriage return into a text. *)
Lemma no_cr_strip s :
  Py.no_cr s = true → Py.no_cr (strip_ultra_block_section s) = true.
Proof.
  intros Hs. unfold strip_ultra_block_section, re_sub_block.
  by rewrite no_cr_app, no_cr_rstrip by by apply no_cr_sub_block.
Qed.

Lemma hosts_text_no_cr w : Py.no_cr (hosts_text w) = true.
Proof.
  unfold hosts_text. destruct (hosts_file w); [|done].
  apply universal_newlines_no_cr.
Qed.

Lemma hosts_text_Some w s :
  hosts_file w = Some s → hosts_text w = Py.universal_newlines s.
Proof. unfold hosts_text. by intros ->. Qed.

(** What is read from a file that holds a stripped text. *)
Lemma hosts_text_stripped w t :
  Py.no_cr t = true →
  hosts_file w = Some (strip_ultra_block_section t) →
  hosts_text w = strip_ultra_block_section t.
Proof.
  intros Ht ->%hosts_text_Some.
  by apply universal_newlines_fixed, no_cr_strip.
Qed.

Lemma body_read_no_upper ds : Py.no_upper (body_read ds) = true.
Proof.
  apply universal_newlines_no_upper, block_body_no_upper,
    expand_domains_no_upper.
Qed.

(** What is read from a file that Apply wrote: the stripped text and the
    block, whose markers are as written. *)
Lemma hosts_text_applied w ds t :
  Py.no_cr t = true →
  hosts_file w = Some (applied ds t) →
  hosts_text w
  = strip_ultra_block_section t +:+ Py.nl +:+ HOSTS_TAG_START
    +:+ body_read ds +:+ HOSTS_TAG_END +:+ Py.nl.
Proof.
  intros Ht ->%hosts_text_Some. unfold applied, body_read.
  rewrite concat_block_lines, !str_app_assoc.
  rewrite universal_newlines_app_no_cr by by apply no_cr_strip.
  rewrite (universal_newlines_app_no_cr Py.nl) by done.
  rewrite (universal_newlines_app_no_cr HOSTS_TAG_START) by done.
  change (HOSTS_TAG_END +:+ Py.nl)
    with (String "#" (" === ULTRA_POMODORO_BLOCK_END ===" +:+ Py.nl)).
  by rewrite universal_newlines_app_cons.
Qed.

End text_mode.

Section hosts_claims.
Implicit Types (w : world) (ds : list string) (s t A : string).

Lemma count_marker_body m A body :
  marker m → Py.contains m A = false → Py.no_upper body = true →
  Py.count m
    (A +:+ Py.nl +:+ HOSTS_TAG_START +:+ body +:+ HOSTS_TAG_END
     +:+ Py.nl) = 1.
Proof.
  intros Hm HA Hbody.
  rewrite count_app_nl, (count_0 _ _ HA)
    by auto using marker_no_nl, marker_nonempty.
  destruct (count_block body Py.nl) as [Hs He]; [done |].
  by destruct Hm as [-> | ->]; [rewrite Hs | rewrite He].
Qed.

Lemma count_marker_applied m A ds :
  marker m → Py.contains m A = false →
  (∀ d, d ∈ ds → Py.no_upper d = true) →
  Py.count m
    (A +:+ Py.nl +:+ String.concat Py.nl (block_lines ds) +:+ Py.nl) = 1.
Proof.
  intros Hm HA Hds. rewrite concat_block_lines, !str_app_assoc.
  apply count_marker_body; [done.. | by apply block_body_no_upper].
Qed.

Lemma block_body_no_cr ds :
  (∀ d, d ∈ ds → Py.no_cr d = true) → Py.no_cr (block_body ds) = true.
Proof.
  induction ds as [|d ds IH]; intros H; [done |].
  cbn [block_body]. rewrite !no_cr_app.
  rewrite (H d), IH; [done | |].
  - intros x Hx. apply H. by right.
  - by left.
Qed.

(** C1 (amended).  As root on a writable hosts file whose text, once
    stripped, holds no end marker: two Applies in a row with the same
    domain list both succeed and leave in the file a document [A], blank
    line, the block written for the normalised domains, newline, where
    [A] holds no marker; so the document has the start marker once and
    the end marker once, and so has the text that is read back from it,
    which is the document itself when no domain holds a carriage
    return.  When the stripped text holds no start marker either, the
    second Apply leaves the document the first one wrote. *)
Theorem apply_twice_one_block ds w :
  euid_root w = true → hosts_writable w = true →
  Py.contains HOSTS_TAG_END (strip_ultra_block_section (hosts_text w))
  = false →
  ∃ w1 w2 A doc,
    apply_hosts_block ds w = ((true, None), w1)
    ∧ apply_hosts_block ds w1 = ((true, None), w2)
    ∧ hosts_file w2 = Some doc
    ∧ doc
      = A +:+ Py.nl
        +:+ String.concat Py.nl (block_lines (expand_domains ds))
        +:+ Py.nl
    ∧ Py.contains HOSTS_TAG_START A = false
    ∧ Py.contains HOSTS_TAG_END A = false
    ∧ Py.count HOSTS_TAG_START doc = 1
    ∧ Py.count HOSTS_TAG_END doc = 1
    ∧ Py.count HOSTS_TAG_START (hosts_text w2) = 1
    ∧ Py.count HOSTS_TAG_END (hosts_text w2) = 1
    ∧ ((∀ d, d ∈ expand_domains ds → Py.no_cr d = true) →
       hosts_text w2 = doc)
    ∧ (Py.contains HOSTS_TAG_START
         (strip_ultra_block_section (hosts_text w)) = false →
       hosts_file w2 = hosts_file w1).
Proof.
  intros Hroot Hwr Hend.
  destruct (apply_hosts_block_ok ds w Hroot Hwr)
    as (w1 & Hap1 & Hf1 & Hroot1 & Hwr1).
  destruct (apply_hosts_block_ok ds w1 Hroot1 Hwr1)
    as (w2 & Hap2 & Hf2 & _ & _).
  pose proof (hosts_text_applied w1 ds _ (hosts_text_no_cr w) Hf1) as Ht1.
  pose proof (hosts_text_applied w2 ds _ (hosts_text_no_cr w1) Hf2) as Ht2.
  assert (Hlow : ∀ d, d ∈ expand_domains ds → Py.no_upper d = true)
    by apply expand_domains_no_upper.
  destruct (strip_written_body _ _ Hend (body_read_no_upper ds))
    as (A & HA & HAs & HAe & _).
  rewrite <-Ht1 in HA. rewrite HA in Ht2.
  exists w1, w2, A. eexists. split; [done |]. split; [done |].
  split; [by rewrite Hf2; unfold applied; rewrite HA |].
  split; [done |]. split; [done |]. split; [done |].
  split; [apply count_marker_applied; [by left | done..] |].
  split; [apply count_marker_applied; [by right | done..] |].
  split; [rewrite Ht2;
          apply count_marker_body;
            [by left | done | apply body_read_no_upper] |].
  split; [rewrite Ht2;
          apply count_marker_body;
            [by right | done | apply body_read_no_upper] |].
  split.
  - intros Hcr. rewrite (hosts_text_Some _ _ Hf2).
    unfold applied. rewrite HA. apply universal_newlines_fixed.
    rewrite concat_block_lines, !no_cr_app.
    rewrite block_body_no_cr by done.
    rewrite <-HA, no_cr_strip by apply hosts_text_no_cr. done.
  - intros Hstart. rewrite Hf1, Hf2. f_equal.
    unfold applied at 1. unfold applied at 1. f_equal.
    rewrite Ht1.
    rewrite strip_written_no_start_body
      by (done || apply body_read_no_upper).
    apply rstrip_strip.
Qed.

Lemma apply_twice_one_block_witness :
  ∃ w1 w2 A doc,
    apply_hosts_block ["example.com"]
      (root_world (Some "127.0.0.1 localhost")) = ((true, None), w1)
    ∧ apply_hosts_block ["example.com"] w1 = ((true, None), w2)
    ∧ hosts_file w2 = Some doc
    ∧ doc
      = A +:+ Py.nl
        +:+ String.concat Py.nl
              (block_lines (expand_domains ["example.com"]))
        +:+ Py.nl
    ∧ Py.contains HOSTS_TAG_START A = false
    ∧ Py.contains HOSTS_TAG_END A = false
    ∧ Py.count HOSTS_TAG_START doc = 1
    ∧ Py.count HOSTS_TAG_END doc = 1
    ∧ Py.count HOSTS_TAG_START (hosts_text w2) = 1
    ∧ Py.count HOSTS_TAG_END (hosts_text w2) = 1
    ∧ ((∀ d, d ∈ expand_domains ["example.com"] → Py.no_cr d = true) →
       hosts_text w2 = doc)
    ∧ (Py.contains HOSTS_TAG_START
         (strip_ultra_block_section
            (hosts_text (root_world (Some "127.0.0.1 localhost"))))
       = false →
       hosts_file w2 = hosts_file w1).
Proof.
  apply (apply_twice_one_block ["example.com"]
           (root_world (Some "127.0.0.1 localhost")));
    vm_compute; reflexivity.
Defined.

(** C1 fails as stated: on a hosts file that holds a lone end marker,
    two Applies leave two end markers in the document. *)
Lemma apply_twice_stray_end :
  let w := root_world (Some HOSTS_TAG_END) in
  let r1 := apply_hosts_block ["example.com"] w in
  let r2 := apply_hosts_block ["example.com"] r1.2 in
  r1.1 = (true, None) ∧ r2.1 = (true, None)
  ∧ Py.count HOSTS_TAG_END (hosts_text r2.2) = 2.
Proof. vm_compute. done. Qed.

(** The example of the specification: the block for [example.com],
    applied twice to an empty hosts file. *)
Example apply_twice_example :
  hosts_file
    (apply_hosts_block ["example.com"]
       (apply_hosts_block ["example.com"] (root_world (Some ""))).2).2
  = Some (Py.nl +:+ Py.nl
          +:+ HOSTS_TAG_START +:+ Py.nl
          +:+ "127.0.0.1 example.com" +:+ Py.nl
          +:+ "::1 example.com" +:+ Py.nl
          +:+ "127.0.0.1 www.example.com" +:+ Py.nl
          +:+ "::1 www.example.com" +:+ Py.nl
          +:+ HOSTS_TAG_END +:+ Py.nl).
Proof. vm_compute. reflexivity. Qed.

(** A domain with a carriage return inside is written as it is and
    read back with a line feed in its place. *)
Example apply_carriage_return :
  let cr := String Py.cr "" in
  let w := (apply_hosts_block ["a" +:+ cr +:+ "b"] (root_world (Some ""))).2 in
  hosts_file w
  = Some (Py.nl +:+ Py.nl +:+ HOSTS_TAG_START +:+ Py.nl
          +:+ "127.0.0.1 a" +:+ cr +:+ "b" +:+ Py.nl
          +:+ "::1 a" +:+ cr +:+ "b" +:+ Py.nl
          +:+ "127.0.0.1 www.a" +:+ cr +:+ "b" +:+ Py.nl
          +:+ "::1 www.a" +:+ cr +:+ "b" +:+ Py.nl
          +:+ HOSTS_TAG_END +:+ Py.nl)
  ∧ hosts_text w
    = Py.nl +:+ Py.nl +:+ HOSTS_TAG_START +:+ Py.nl
      +:+ "127.0.0.1 a" +:+ Py.nl +:+ "b" +:+ Py.nl
      +:+ "::1 a" +:+ Py.nl +:+ "b" +:+ Py.nl
      +:+ "127.0.0.1 www.a" +:+ Py.nl +:+ "b" +:+ Py.nl
      +:+ "::1 www.a" +:+ Py.nl +:+ "b" +:+ Py.nl
      +:+ HOSTS_TAG_END +:+ Py.nl.
Proof. vm_compute. done. Qed.

(** C2 (amended).  As root on a writable hosts file whose text as read
    (line ends as line feeds; empty when the file cannot be read or
    decoded), once stripped, holds no start marker: Apply then Clear
    both succeed and leave in the file exactly the stripped text, which
    has no start marker and is read back as it is.  The file is then
    what it was before Apply exactly when it already held the stripped
    text; a file that cannot be read comes out as one newline; when the
    text read had no block to strip the file holds that text with its
    trailing white space replaced by one newline, so a file [doc]
    without block comes out unchanged exactly when it has no carriage
    return and is [doc.rstrip()] followed by one newline. *)
Theorem apply_then_clear ds w :
  euid_root w = true → hosts_writable w = true →
  Py.contains HOSTS_TAG_START (strip_ultra_block_section (hosts_text w))
  = false →
  ∃ w1 w2,
    apply_hosts_block ds w = ((true, None), w1)
    ∧ clear_hosts_block w1 = ((true, None), w2)
    ∧ hosts_file w2 = Some (strip_ultra_block_section (hosts_text w))
    ∧ hosts_text w2 = strip_ultra_block_section (hosts_text w)
    ∧ Py.contains HOSTS_TAG_START (hosts_text w2) = false
    ∧ (hosts_file w2 = hosts_file w
       ↔ hosts_file w = Some (strip_ultra_block_section (hosts_text w)))
    ∧ (hosts_file w = None → hosts_file w2 = Some Py.nl)
    ∧ (has_block (hosts_text w) = false →
       hosts_file w2 = Some (Py.rstrip (hosts_text w) +:+ Py.nl)
       ∧ ∀ doc, hosts_file w = Some doc →
           (hosts_file w2 = hosts_file w
            ↔ Py.no_cr doc = true ∧ doc = Py.rstrip doc +:+ Py.nl)).
Proof.
  intros Hroot Hwr Hstart.
  destruct (apply_hosts_block_ok ds w Hroot Hwr)
    as (w1 & Hap1 & Hf1 & Hroot1 & Hwr1).
  destruct (clear_hosts_block_ok w1 Hroot1 Hwr1)
    as (w2 & Hcl & Hf2 & _ & _).
  pose proof (hosts_text_applied w1 ds _ (hosts_text_no_cr w) Hf1) as Ht1.
  assert (hosts_file w2 = Some (strip_ultra_block_section (hosts_text w)))
    as Hres.
  { rewrite Hf2, Ht1. f_equal.
    rewrite strip_written_no_start_body
      by (done || apply body_read_no_upper).
    apply rstrip_strip. }
  pose proof (hosts_text_stripped w2 _ (hosts_text_no_cr w) Hres) as Ht2.
  exists w1, w2. split; [done |]. split; [done |]. split; [done |].
  split; [done |]. split; [by rewrite Ht2 |].
  split; [rewrite Hres; split; congruence |].
  split; [intros Hnone; rewrite Hres; unfold hosts_text;
          by rewrite Hnone |].
  intros Hnb.
  assert (strip_ultra_block_section (hosts_text w)
          = Py.rstrip (hosts_text w) +:+ Py.nl) as Hstrip.
  { unfold strip_ultra_block_section. by rewrite re_sub_block_no_block. }
  split; [by rewrite Hres, Hstrip |].
  intros doc Hdoc. rewrite Hres, Hstrip, Hdoc, (hosts_text_Some _ _ Hdoc).
  split.
  - intros [= H].
    assert (Py.no_cr doc = true) as Hcr.
    { rewrite <-H, no_cr_app, no_cr_rstrip
        by apply universal_newlines_no_cr. done. }
    split; [done |]. by rewrite universal_newlines_fixed in H.
  - intros [Hcr Heq]. rewrite universal_newlines_fixed by done.
    by rewrite <-Heq.
Qed.

Lemma apply_then_clear_witness :
  let w := root_world (Some "127.0.0.1 localhost") in
  ∃ w1 w2,
    apply_hosts_block ["example.com"] w = ((true, None), w1)
    ∧ clear_hosts_block w1 = ((true, None), w2)
    ∧ hosts_file w2 = Some (strip_ultra_block_section (hosts_text w))
    ∧ hosts_text w2 = strip_ultra_block_section (hosts_text w)
    ∧ Py.contains HOSTS_TAG_START (hosts_text w2) = false
    ∧ (hosts_file w2 = hosts_file w
       ↔ hosts_file w = Some (strip_ultra_block_section (hosts_text w)))
    ∧ (hosts_file w = None → hosts_file w2 = Some Py.nl)
    ∧ (has_block (hosts_text w) = false →
       hosts_file w2 = Some (Py.rstrip (hosts_text w) +:+ Py.nl)
       ∧ ∀ doc, hosts_file w = Some doc →
           (hosts_file w2 = hosts_file w
            ↔ Py.no_cr doc = true ∧ doc = Py.rstrip doc +:+ Py.nl)).
Proof.
  apply (apply_then_clear ["example.com"]
           (root_world (Some "127.0.0.1 localhost")));
    vm_compute; reflexivity.
Defined.

(** C2 fails as stated: Apply then Clear on a hosts file without a final
    newline leaves a document that differs from the one before Apply. *)
Lemma apply_then_clear_changes_text :
  let w := root_world (Some "127.0.0.1 localhost") in
  let r1 := apply_hosts_block ["example.com"] w in
  let r2 := clear_hosts_block r1.2 in
  r1.1 = (true, None) ∧ r2.1 = (true, None)
  ∧ hosts_file r2.2 = Some ("127.0.0.1 localhost" +:+ Py.nl)
  ∧ hosts_file r2.2 ≠ hosts_file w.
Proof. vm_compute. by repeat split. Qed.

(** Line ends are rewritten too: a file with the line ends carriage
    return, line feed comes out with line feeds, though its last line is
    ended; and a file that could not be read comes out as one newline.
    A file that is one newline comes out as it was. *)
Example apply_then_clear_line_ends :
  let crlf := String Py.cr Py.nl in
  let after (text : option string) :=
    hosts_file
      (clear_hosts_block
         (apply_hosts_block ["example.com"] (root_world text)).2).2 in
  after (Some ("127.0.0.1 localhost" +:+ crlf +:+ "::1 localhost" +:+ crlf))
  = Some ("127.0.0.1 localhost" +:+ Py.nl +:+ "::1 localhost" +:+ Py.nl)
  ∧ after None = Some Py.nl
  ∧ after (Some Py.nl) = Some Py.nl.
Proof. vm_compute. done. Qed.

(** C3.  Without root, Apply and Clear return [(False, "permission")]
    and leave the machine as it was: the hosts file is neither opened
    for reading nor for writing (the trace gets no event) and its text
    is unchanged. *)
Theorem no_root_no_access ds w :
  euid_root w = false →
  apply_hosts_block ds w = ((false, Some "permission"), w)
  ∧ clear_hosts_block w = ((false, Some "permission"), w)
  ∧ trace (apply_hosts_block ds w).2 = trace w
  ∧ trace (clear_hosts_block w).2 = trace w
  ∧ hosts_file (apply_hosts_block ds w).2 = hosts_file w
  ∧ hosts_file (clear_hosts_block w).2 = hosts_file w.
Proof.
  intros Hroot.
  unfold apply_hosts_block, clear_hosts_block, bind, require_root, ret.
  by rewrite Hroot.
Qed.

Lemma no_root_no_access_witness :
  let w := user_world (Some "127.0.0.1 localhost") in
  apply_hosts_block ["example.com"] w = ((false, Some "permission"), w)
  ∧ clear_hosts_block w = ((false, Some "permission"), w)
  ∧ trace (apply_hosts_block ["example.com"] w).2 = trace w
  ∧ trace (clear_hosts_block w).2 = trace w
  ∧ hosts_file (apply_hosts_block ["example.com"] w).2 = hosts_file w
  ∧ hosts_file (clear_hosts_block w).2 = hosts_file w.
Proof.
  apply (no_root_no_access ["example.com"]
           (user_world (Some "127.0.0.1 localhost"))).
  reflexivity.
Defined.

(** With root, the same calls do open the file: the trace records the
    read and the write. *)
Example root_access_trace :
  trace (apply_hosts_block [] (root_world (Some ""))).2
  = [EvRead;
     EvWrite (Py.nl +:+ Py.nl +:+ HOSTS_TAG_START +:+ Py.nl
              +:+ HOSTS_TAG_END +:+ Py.nl) true]
  ∧ trace (clear_hosts_block (root_world (Some ""))).2
    = [EvRead; EvWrite Py.nl true].
Proof. vm_compute. done. Qed.

End hosts_claims.

(** ** Strip on its own *)

Section strip_claims.
Implicit Types (s t doc ws : string).

(** Without a block to delete, strip returns the text that precedes
    the trailing white space, and a newline. *)
Lemma strip_no_block doc :
  has_block doc = false →
  ∃ t ws,
    doc = t +:+ ws ∧ Py.all_space ws = true
    ∧ Py.ends_with_space t = false
    ∧ strip_ultra_block_section doc = t +:+ Py.nl.
Proof.
  intros Hnb. destruct (rstrip_spec doc) as (ws & Hdoc & Hws).
  exists (Py.rstrip doc), ws. repeat split; try done.
  - apply rstrip_ends.
  - unfold strip_ultra_block_section. by rewrite re_sub_block_no_block.
Qed.

(** C8 (amended).  On a document that holds the end marker but no start
    marker with an end marker after it, the substitution deletes
    nothing, and strip returns the document with its trailing white
    space replaced by one newline: the document is [t] followed by white
    space [ws] only, [t] does not end in white space, and strip returns
    [t] and a newline. *)
Theorem strip_end_without_start doc :
  Py.contains HOSTS_TAG_END doc = true → has_block doc = false →
  re_sub_block doc = doc
  ∧ ∃ t ws,
      doc = t +:+ ws ∧ Py.all_space ws = true
      ∧ Py.ends_with_space t = false
      ∧ strip_ultra_block_section doc = t +:+ Py.nl.
Proof.
  intros _ Hnb. split.
  - by apply re_sub_block_no_block.
  - by apply strip_no_block.
Qed.

Lemma strip_end_without_start_witness :
  let doc := "127.0.0.1 localhost" +:+ Py.nl +:+ HOSTS_TAG_END +:+ " " in
  re_sub_block doc = doc
  ∧ ∃ t ws,
      doc = t +:+ ws ∧ Py.all_space ws = true
      ∧ Py.ends_with_space t = false
      ∧ strip_ultra_block_section doc = t +:+ Py.nl.
Proof.
  apply (strip_end_without_start
           ("127.0.0.1 localhost" +:+ Py.nl +:+ HOSTS_TAG_END +:+ " "));
    vm_compute; reflexivity.
Defined.

(** C8 fails as stated: strip changes a document that is the end marker
    alone, by the newline it adds. *)
Lemma strip_end_marker_changes :
  Py.contains HOSTS_TAG_END HOSTS_TAG_END = true
  ∧ Py.contains HOSTS_TAG_START HOSTS_TAG_END = false
  ∧ strip_ultra_block_section HOSTS_TAG_END = HOSTS_TAG_END +:+ Py.nl
  ∧ strip_ultra_block_section HOSTS_TAG_END ≠ HOSTS_TAG_END.
Proof. vm_compute. by repeat split. Qed.

(** C10.  Whatever the input, strip returns a text [t] followed by one
    newline, where [t] does not end in white space (so not in a newline
    either); when the input has no block to delete, [t] is the input
    without its trailing white space.  So strip changes a document
    without any marker whose trailing white space is not one newline,
    and so does Clear. *)
Theorem strip_trailing_newline :
  (∀ s, ∃ t,
      strip_ultra_block_section s = t +:+ Py.nl
      ∧ Py.ends_with_space t = false
      ∧ (has_block s = false →
         ∃ ws, s = t +:+ ws ∧ Py.all_space ws = true))
  ∧ ∃ doc,
      Py.contains HOSTS_TAG_START doc = false
      ∧ Py.contains HOSTS_TAG_END doc = false
      ∧ strip_ultra_block_section doc ≠ doc
      ∧ hosts_file (clear_hosts_block (root_world (Some doc))).2
        ≠ Some doc.
Proof.
  split.
  - intros s. exists (Py.rstrip (re_sub_block s)).
    split; [done |]. split; [apply rstrip_ends |].
    intros Hnb. rewrite re_sub_block_no_block by done.
    destruct (rstrip_spec s) as (ws & Hs & Hws). eauto.
  - exists "127.0.0.1 localhost  ". by vm_compute.
Qed.

End strip_claims.

(** ** The normalised list: bare form, then [www.] form *)

Section expand_order.
Implicit Types (d c x y : string) (l ds : list string).

Lemma flat_map_cons_expand d ds :
  flat_map expand_one (d :: ds) = expand_one d ++ flat_map expand_one ds.
Proof. done. Qed.




(** The normalised list of the witness. *)
Example expand_domains_example :
  expand_domains ["Example.com"; "https://foo.org/a"; "example.com"]
  = ["example.com"; "www.example.com"; "foo.org"; "www.foo.org"].
Proof. vm_compute. reflexivity. Qed.

(** Where a canonical form starts with [www.], the order can be the
    other way round. *)
Example expand_domains_www_first :
  expand_domains ["www.a.b"; "a.b"] = ["www.a.b"; "a.b"].
Proof. vm_compute. reflexivity. Qed.

End expand_order.

(** ** Normalising twice *)

Section expand_idem.
Implicit Types (d c x y s t : string) (l ds : list string)
  (seen : gset string).

Lemma lower_char_idem (a : ascii) :
  Py.lower_char (Py.lower_char a) = Py.lower_char a.
Proof. by destruct a as [[] [] [] [] [] [] [] []]. Qed.

Lemma lower_idem s : Py.lower (Py.lower s) = Py.lower s.
Proof.
  induction s as [|a s IH]; simpl; [done |].
  by rewrite lower_char_idem, IH.
Qed.

Lemma lower_fixed_drop n s :
  Py.lower s = s → Py.lower (Py.drop n s) = Py.drop n s.
Proof.
  revert s. induction n as [|n IH]; intros [|a s]; simpl; try done.
  intros [= _ H]. by apply IH.
Qed.

Lemma lower_fixed_split_head (sep : ascii) s :
  Py.lower s = s → Py.lower (Py.split_head sep s) = Py.split_head sep s.
Proof.
  induction s as [|a s IH]; simpl; [done |].
  intros [= Ha H]. destruct (Ascii.eqb a sep); simpl; [done |].
  by rewrite Ha, IH.
Qed.

Lemma split_head_idem (sep : ascii) s :
  Py.split_head sep (Py.split_head sep s) = Py.split_head sep s.
Proof.
  induction s as [|a s IH]; simpl; [done |].
  destruct (Ascii.eqb a sep) eqn:Ha; simpl; [done |]. by rewrite Ha, IH.
Qed.

(** A canonical form is in lower case and has no slash. *)
Lemma canonical_shape d c :
  canonical d = Some c → Py.lower c = c ∧ Py.split_head "/" c = c.
Proof.
  unfold canonical. destruct (String.eqb _ _); [done |]. intros [= <-].
  split; [|apply split_head_idem].
  apply lower_fixed_split_head.
  destruct (_ || _); [|apply lower_idem].
  unfold re_sub_scheme.
  repeat case_match; auto using lower_fixed_drop, lower_idem.
Qed.

Lemma no_slash_no_scheme c :
  Py.split_head "/" c = c →
  Py.startswith c "http://" = false ∧ Py.startswith c "https://" = false.
Proof.
  intros Hc. unfold Py.startswith.
  split; (destruct (String.prefix _ c) eqn:Hp; [|done]);
    apply prefix_split in Hp; rewrite Hp in Hc; simpl in Hc;
    injection Hc as Hc; discriminate.
Qed.

Lemma lstrip_length s : String.length (Py.lstrip s) ≤ String.length s.
Proof.
  induction s as [|a s IH]; simpl; [done |].
  destruct (Py.isspace a); simpl; lia.
Qed.

Lemma rstrip_length s : String.length (Py.rstrip s) ≤ String.length s.
Proof.
  destruct (rstrip_spec s) as (ws & Hs & _).
  apply (f_equal String.length) in Hs. rewrite str_length_app in Hs. lia.
Qed.

Lemma lstrip_fixed_length s :
  String.length (Py.lstrip s) = String.length s → Py.lstrip s = s.
Proof.
  destruct s as [|a s]; simpl; [done |].
  destruct (Py.isspace a); [|done].
  pose proof (lstrip_length s). lia.
Qed.

(** A text that [strip] leaves alone is left alone by [lstrip] and by
    [rstrip]. *)
Lemma strip_fixed c :
  Py.strip c = c → Py.lstrip c = c ∧ Py.rstrip c = c.
Proof.
  unfold Py.strip. intros Hc.
  assert (Py.lstrip c = c) as Hl.
  { apply lstrip_fixed_length.
    pose proof (rstrip_length (Py.lstrip c)) as H1.
    pose proof (lstrip_length c) as H2.
    rewrite Hc in H1. lia. }
  by rewrite Hl in Hc.
Qed.

Lemma rstrip_app_fixed s t :
  t ≠ "" → Py.rstrip t = t → Py.rstrip (s +:+ t) = s +:+ t.
Proof.
  intros Hne Ht. induction s as [|a s IH]; simpl; [done |].
  rewrite IH. destruct (s +:+ t) eqn:Hst; [|done].
  by destruct s.
Qed.

(** A clean canonical form is its own canonical form. *)
Lemma canonical_fixed c :
  c ≠ "" → Py.strip c = c → Py.lower c = c → Py.split_head "/" c = c →
  canonical c = Some c.
Proof.
  intros Hne Hstrip Hlow Hslash. unfold canonical.
  rewrite Hstrip, Hlow.
  destruct (no_slash_no_scheme c Hslash) as [-> ->]. simpl.
  rewrite Hslash. by destruct c.
Qed.

Lemma canonical_fixed_www c :
  c ≠ "" → Py.strip c = c → Py.lower c = c → Py.split_head "/" c = c →
  canonical ("www." +:+ c) = Some ("www." +:+ c).
Proof.
  intros Hne [_ Hr]%strip_fixed Hlow Hslash. apply canonical_fixed.
  - done.
  - unfold Py.strip. simpl Py.lstrip.
    by apply (rstrip_app_fixed "www.").
  - simpl. by rewrite Hlow.
  - simpl. by rewrite Hslash.
Qed.

(** What a clean canonical form adds to [out] is added again, and
    nothing else, when the result is normalised. *)
Lemma expand_one_fixed d x :
  (∀ c, canonical d = Some c → c ≠ "" ∧ Py.strip c = c) →
  x ∈ expand_one d → expand_one x = with_www x.
Proof.
  intros H. unfold expand_one at 1.
  destruct (canonical d) as [c|] eqn:Hc; [|by intros ?%elem_of_nil].
  destruct (H c eq_refl) as [Hne Hstrip].
  destruct (canonical_shape d c Hc) as [Hlow Hslash].
  unfold with_www at 1. intros [-> | Hx]%elem_of_cons.
  - unfold expand_one. by rewrite canonical_fixed.
  - destruct (Py.startswith c "www."); [by apply elem_of_nil in Hx |].
    apply list_elem_of_singleton in Hx as ->.
    unfold expand_one. by rewrite canonical_fixed_www.
Qed.

Lemma dedup_seen seen l : (∀ x, x ∈ l → x ∈ seen) → dedup seen l = [].
Proof.
  induction l as [|d l IH]; intros H; simpl; [done |].
  destruct (decide (d ∈ seen)) as [|Hd]; [apply IH; set_solver |].
  destruct Hd. apply H. set_solver.
Qed.

(** Dropping repeated entries before a list is expanded entry by entry
    does not change the first-occurrence filter of the expansion. *)
Lemma dedup_flat_map_dedup (g : string → list string) seen seen' l :
  (∀ x y, x ∈ seen' → y ∈ g x → y ∈ seen) →
  dedup seen (flat_map g (dedup seen' l)) = dedup seen (flat_map g l).
Proof.
  revert seen seen'. induction l as [|x l IH]; intros seen seen' H; [done |].
  simpl. destruct (decide (x ∈ seen')) as [Hx|Hx].
  - rewrite IH by done. rewrite dedup_app.
    rewrite (dedup_seen seen (g x)) by (intros y Hy; by apply (H x)).
    simpl. f_equal. apply set_eq. intros y.
    rewrite elem_of_union, elem_of_list_to_set. naive_solver.
  - simpl. rewrite !dedup_app. f_equal. apply IH.
    intros x' y [->%elem_of_singleton | Hx']%elem_of_union Hy.
    + apply elem_of_union. left. by apply elem_of_list_to_set.
    + apply elem_of_union. right. eauto.
Qed.

Lemma with_www_twice c :
  flat_map with_www (with_www c)
  = with_www c ++ (if Py.startswith c "www." then [] else ["www." +:+ c]).
Proof.
  unfold with_www at 2 3.
  destruct (Py.startswith c "www.") eqn:Hc; cbn [flat_map];
    unfold with_www; rewrite ?Hc, app_nil_r; [done |].
  unfold Py.startswith. by rewrite prefix_app.
Qed.

(** Expanding an expanded list only repeats [www.] forms. *)
Lemma dedup_flat_map_with_www seen ds :
  dedup seen (flat_map with_www (flat_map expand_one ds))
  = dedup seen (flat_map expand_one ds).
Proof.
  revert seen. induction ds as [|d ds IH]; intros seen; [done |].
  rewrite flat_map_cons_expand, flat_map_app, !dedup_app, IH.
  assert (expand_one d = [] ∨ ∃ c, expand_one d = with_www c)
    as [-> | [c ->]]
    by (unfold expand_one; destruct (canonical d); eauto);
    [done |].
  rewrite with_www_twice. unfold with_www.
  destruct (Py.startswith c "www."); [done |].
  f_equal.
  - simpl. repeat (case_decide; simpl); set_solver.
  - f_equal. set_solver.
Qed.

(** C5 (amended).  When every canonical form of the input is non-empty
    and has no white space at either end, normalising the normalised
    list gives the normalised list. *)
Theorem expand_domains_idempotent ds :
  (∀ d c, d ∈ ds → canonical d = Some c → c ≠ "" ∧ Py.strip c = c) →
  expand_domains (expand_domains ds) = expand_domains ds.
Proof.
  intros H. rewrite !expand_domains_dedup.
  set (R := flat_map expand_one ds).
  assert (flat_map expand_one (dedup ∅ R) = flat_map with_www (dedup ∅ R))
    as ->.
  { assert (∀ l, (∀ x, x ∈ l → x ∈ R) →
                 flat_map expand_one l = flat_map with_www l) as Hext.
    { induction l as [|x l IH]; intros Hl; [done |]. cbn [flat_map].
      rewrite IH by (intros; apply Hl; set_solver). f_equal.
      assert (x ∈ R) as (d & Hd & Hx)%list_elem_of_In%in_flat_map
        by (apply Hl; set_solver).
      apply (expand_one_fixed d); [|by apply list_elem_of_In].
      intros c. apply H. by apply list_elem_of_In. }
    apply Hext. intros x. rewrite elem_of_dedup. tauto. }
  rewrite dedup_flat_map_dedup by set_solver.
  apply dedup_flat_map_with_www.
Qed.

Lemma expand_domains_idempotent_witness :
  let ds := ["Example.com"; "https://www.foo.org/a"; " example.com "] in
  expand_domains (expand_domains ds) = expand_domains ds.
Proof.
  apply (expand_domains_idempotent
           ["Example.com"; "https://www.foo.org/a"; " example.com "]).
  intros d c Hd Hc.
  repeat (apply elem_of_cons in Hd as [-> | Hd];
          [vm_compute in Hc; injection Hc as <-; by vm_compute |]).
  by apply elem_of_nil in Hd.
Defined.

(** C5 fails as stated: the path is cut after the white space was
    stripped, so a space before the slash stays in the canonical form
    and goes when the list is normalised again. *)
Lemma expand_domains_not_idempotent :
  expand_domains ["a /b"] = ["a "; "www.a "]
  ∧ expand_domains (expand_domains ["a /b"]) = ["a"; "www.a"]
  ∧ expand_domains (expand_domains ["a /b"]) ≠ expand_domains ["a /b"].
Proof. vm_compute. by repeat split. Qed.

(** An input that is only a path has the empty string as canonical
    form: the test for an empty domain comes before the path is cut.
    The empty entry goes when the list is normalised again. *)
Example expand_domains_empty_form :
  expand_domains ["/"] = [""; "www."]
  ∧ expand_domains (expand_domains ["/"]) = ["www."].
Proof. vm_compute. by repeat split. Qed.

End expand_idem.

(** ** The resolution prober *)

Section resolve.
Implicit Types (w : world) (domain a : string) (infos : list addrinfo).

Lemma elem_of_collect_addrs a (ips : gset string) infos :
  a ∈ foldl (λ ips ai, {[ai_addr ai]} ∪ ips) ips infos
  ↔ a ∈ ips ∨ ∃ ai, ai ∈ infos ∧ ai_addr ai = a.
Proof.
  revert ips. induction infos as [|ai infos IH]; intros ips; simpl.
  - set_solver.
  - rewrite IH. set_solver.
Qed.

(** C9.  [resolve_all] changes nothing on the machine and its result
    depends on the resolver's answer only (not on the user id): the
    list is sorted, has no duplicates and holds exactly the addresses
    of the entries the resolver returned; it is empty when the resolver
    raises. *)
Theorem resolve_all_sorted domain w :
  (resolve_all domain w).2 = w
  ∧ StronglySorted String.le (resolve_all domain w).1
  ∧ NoDup (resolve_all domain w).1
  ∧ (∀ a, a ∈ (resolve_all domain w).1
          ↔ ∃ infos ai, getaddrinfo w domain = Some infos
                        ∧ ai ∈ infos ∧ ai_addr ai = a)
  ∧ (getaddrinfo w domain = None → (resolve_all domain w).1 = [])
  ∧ (∀ w', getaddrinfo w' domain = getaddrinfo w domain →
           (resolve_all domain w').1 = (resolve_all domain w).1).
Proof.
  unfold resolve_all. simpl. split; [done |].
  split; [apply StronglySorted_merge_sort; apply _ |].
  split; [rewrite merge_sort_Permutation; apply NoDup_elements |].
  split; [|split].
  - intros a. rewrite merge_sort_Permutation, elem_of_elements.
    destruct (getaddrinfo w domain) as [infos|].
    + rewrite elem_of_collect_addrs. set_solver.
    + set_solver.
  - intros ->. by rewrite elements_empty.
  - by intros w' ->.
Qed.

(** The prober on a resolver that returns an address twice, and on a
    name that does not resolve. *)
Example resolve_all_example :
  (resolve_all "example.com" resolver_world).1
  = ["2606:2800:220:1::1"; "93.184.216.34"]
  ∧ (resolve_all "no.such.name" resolver_world).1 = [].
Proof. vm_compute. done. Qed.

End resolve.

Lemma resolve_all_sorted_witness :
  (resolve_all "example.com" resolver_world).2 = resolver_world
  ∧ StronglySorted String.le (resolve_all "example.com" resolver_world).1
  ∧ NoDup (resolve_all "example.com" resolver_world).1
  ∧ (∀ a, a ∈ (resolve_all "example.com" resolver_world).1
          ↔ ∃ infos ai, getaddrinfo resolver_world "example.com" = Some infos
                        ∧ ai ∈ infos ∧ ai_addr ai = a)
  ∧ (getaddrinfo resolver_world "example.com" = None →
     (resolve_all "example.com" resolver_world).1 = [])
  ∧ (∀ w', getaddrinfo w' "example.com"
           = getaddrinfo resolver_world "example.com" →
           (resolve_all "example.com" w').1
           = (resolve_all "example.com" resolver_world).1).
Proof. exact (resolve_all_sorted "example.com" resolver_world). Defined.

(** ** Room events *)

Section rooms.
Implicit Types (sid room_id : string) (data : json) (s : Sio.state).

(** C7.  A [room:join] or [room:leave] event whose [roomId] is missing
    or empty once trimmed is answered with
    [{"ok": False, "error": "missing roomId"}]; the server is as it was:
    same members of every room, nothing emitted. *)
Theorem room_event_missing_id sid data s :
  room_id_of data = Some "" →
  on_room_join sid data s
  = (Some (JDict [("ok", JBool false); ("error", JStr "missing roomId")]), s)
  ∧ on_room_leave sid data s
    = (Some (JDict [("ok", JBool false); ("error", JStr "missing roomId")]),
       s).
Proof. intros H. unfold on_room_join, on_room_leave. by rewrite H. Qed.

Lemma room_event_missing_id_witness :
  on_room_join "A" (JDict [("roomId", JStr "  ")]) two_in_abc
  = (Some (JDict [("ok", JBool false); ("error", JStr "missing roomId")]),
     two_in_abc)
  ∧ on_room_leave "A" (JDict [("roomId", JStr "  ")]) two_in_abc
    = (Some (JDict [("ok", JBool false); ("error", JStr "missing roomId")]),
       two_in_abc).
Proof.
  apply (room_event_missing_id "A" (JDict [("roomId", JStr "  ")])
           two_in_abc).
  reflexivity.
Defined.

(** The payloads without a usable [roomId]: no payload, an empty one,
    one without the key, one with blanks only. *)
Example room_id_of_empty :
  room_id_of JNull = Some ""
  ∧ room_id_of (JDict []) = Some ""
  ∧ room_id_of (JDict [("mode", JStr "focus")]) = Some ""
  ∧ room_id_of (JDict [("roomId", JStr "  ")]) = Some ""
  ∧ room_id_of (JDict [("roomId", JStr " abc ")]) = Some "abc".
Proof. vm_compute. done. Qed.

(** With a room id, join does change the membership and emits. *)
Example room_join_example :
  let r := on_room_join "C" (JDict [("roomId", JStr "abc")]) two_in_abc in
  r.1 = Some (JDict [("ok", JBool true); ("roomId", JStr "abc");
                     ("members", JNum 3)])
  ∧ Sio.members "abc" r.2 = {[ "A"; "B"; "C" ]}
  ∧ length (Sio.outbox r.2) = 2.
Proof. vm_compute. done. Qed.

(** C4.  A [timer:sync] or [timer:penalty] event whose payload gives
    the room id [room_id] once trimmed: when [room_id] is empty the
    handler returns nothing and the server is as it was; otherwise the
    server emits one message ([timer:state], resp. [timer:penalty])
    that carries the payload as received and goes to the connections
    that are in the room and are not the sender. *)
Theorem timer_event_relay sid data s room_id :
  room_id_of data = Some room_id →
  (room_id = "" →
     on_timer_sync sid data s = (Some JNull, s)
     ∧ on_timer_penalty sid data s = (Some JNull, s))
  ∧ (room_id ≠ "" →
     ∃ rcpt,
       (∀ c, c ∈ rcpt ↔ c ∈ Sio.members room_id s ∧ c ≠ sid)
       ∧ (sid ∉ rcpt)
       ∧ on_timer_sync sid data s
         = (Some JNull,
            {| Sio.rooms := Sio.rooms s;
               Sio.outbox := Sio.outbox s ++
                 [{| Sio.msg_to := rcpt; Sio.msg_event := "timer:state";
                     Sio.msg_data := data |}] |})
       ∧ on_timer_penalty sid data s
         = (Some JNull,
            {| Sio.rooms := Sio.rooms s;
               Sio.outbox := Sio.outbox s ++
                 [{| Sio.msg_to := rcpt; Sio.msg_event := "timer:penalty";
                     Sio.msg_data := data |}] |})).
Proof.
  intros H. unfold on_timer_sync, on_timer_penalty. rewrite H. split.
  - by intros ->.
  - intros Hne. apply String.eqb_neq in Hne. rewrite Hne.
    exists (Sio.members room_id s ∖ {[sid]}).
    split; [set_solver |]. split; [set_solver | done].
Qed.

Lemma timer_event_relay_witness :
  let data := JDict [("roomId", JStr " abc "); ("remaining", JNum 1500)] in
  ("abc" = "" →
     on_timer_sync "A" data two_in_abc = (Some JNull, two_in_abc)
     ∧ on_timer_penalty "A" data two_in_abc = (Some JNull, two_in_abc))
  ∧ ("abc" ≠ "" →
     ∃ rcpt,
       (∀ c, c ∈ rcpt ↔ c ∈ Sio.members "abc" two_in_abc ∧ c ≠ "A")
       ∧ ("A" ∉ rcpt)
       ∧ on_timer_sync "A" data two_in_abc
         = (Some JNull,
            {| Sio.rooms := Sio.rooms two_in_abc;
               Sio.outbox := Sio.outbox two_in_abc ++
                 [{| Sio.msg_to := rcpt; Sio.msg_event := "timer:state";
                     Sio.msg_data := data |}] |})
       ∧ on_timer_penalty "A" data two_in_abc
         = (Some JNull,
            {| Sio.rooms := Sio.rooms two_in_abc;
               Sio.outbox := Sio.outbox two_in_abc ++
                 [{| Sio.msg_to := rcpt; Sio.msg_event := "timer:penalty";
                     Sio.msg_data := data |}] |})).
Proof.
  apply (timer_event_relay "A"
           (JDict [("roomId", JStr " abc "); ("remaining", JNum 1500)])
           two_in_abc "abc").
  reflexivity.
Defined.

(** The example of the specification: [A] sends [timer:sync] to room
    [abc]; the message goes to [B] and not to [A]. *)
Example timer_sync_example :
  let data := JDict [("roomId", JStr "abc"); ("remaining", JNum 1500)] in
  Sio.outbox (on_timer_sync "A" data two_in_abc).2
  = [{| Sio.msg_to := {[ "B" ]}; Sio.msg_event := "timer:state";
        Sio.msg_data := data |}].
Proof. vm_compute. reflexivity. Qed.

(** A payload that is no dict, or whose [roomId] is no string, makes
    the handlers raise before anything is joined or emitted. *)
Lemma room_event_raises sid data s :
  room_id_of data = None →
  on_room_join sid data s = (None, s)
  ∧ on_room_leave sid data s = (None, s)
  ∧ on_timer_sync sid data s = (None, s)
  ∧ on_timer_penalty sid data s = (None, s).
Proof.
  intros H.
  unfold on_room_join, on_room_leave, on_timer_sync, on_timer_penalty.
  by rewrite H.
Qed.

End rooms.

(** * Further properties *)

(** ** Strip on a document with one tagged block *)

Section strip_parse.
Implicit Types (s p a b pre body post rest : string) (c : ascii).

#[local] Arguments String.prefix : simpl never.

Lemma prefix_app_cases p a b :
  String.prefix p (a +:+ b) = true →
  String.prefix p a = true ∨ String.length a < String.length p.
Proof.
  revert a. induction p as [|c p IH]; intros a H.
  - left. apply prefix_nil.
  - destruct a as [|x a]; [right; simpl; lia |].
    cbn [String.append] in H. apply prefix_cons in H as [-> H].
    destruct (IH _ H) as [Hp | Hlen].
    + left. by apply prefix_cons.
    + right. simpl. lia.
Qed.

(** A match that starts in [a] and runs into what follows reads the
    first character after [a] at the offset [length a]. *)
Lemma prefix_straddle_get p a c b :
  String.prefix p (a +:+ String c b) = true →
  String.length a < String.length p →
  String.get (String.length a) p = Some c.
Proof.
  revert p. induction a as [|x a IH]; intros [|c' p] H Hlen;
    simpl in Hlen; try lia.
  - cbn [String.append] in H. by apply prefix_cons in H as [-> _].
  - cbn [String.append] in H. apply prefix_cons in H as [-> H].
    simpl. apply IH; [done | lia].
Qed.

(** The [#] of a marker is its first character only. *)
Lemma marker_hash_first m i :
  marker m → String.get i m = Some "#"%char → i = 0.
Proof.
  intros [-> | ->] H;
    do 37 (destruct i as [|i]; [done || discriminate H |]);
    by destruct i.
Qed.

(** No marker starts in a text and runs into a marker that follows. *)
Lemma marker_no_straddle m m' a rest :
  marker m → marker m' → a ≠ "" → String.prefix m a = false →
  String.prefix m (a +:+ m' +:+ rest) = false.
Proof.
  intros Hm Hm' Hne Ha.
  destruct (String.prefix m (a +:+ _)) eqn:Hp; [|done]. exfalso.
  destruct (prefix_app_cases _ _ _ Hp) as [? | Hlen]; [congruence |].
  destruct (marker_head m' Hm') as [m'' ->]. cbn [String.append] in Hp.
  pose proof (prefix_straddle_get _ _ _ _ Hp Hlen) as Hget.
  apply marker_hash_first in Hget; [|done]. by destruct a.
Qed.

Lemma after_first_no_marker m m' a rest :
  marker m → marker m' → Py.contains m a = false →
  Py.after_first m (a +:+ m' +:+ rest) = Py.after_first m (m' +:+ rest).
Proof.
  intros Hm Hm'. induction a as [|c a IH]; [done |].
  rewrite contains_cons. intros [Hc Ha]%orb_false_iff.
  cbn [String.append Py.after_first].
  change (String c (a +:+ m' +:+ rest)) with (String c a +:+ m' +:+ rest).
  rewrite marker_no_straddle by done. by apply IH.
Qed.

Lemma re_sub_block_skip pre rest :
  Py.contains HOSTS_TAG_START pre = false →
  re_sub_block (pre +:+ HOSTS_TAG_START +:+ rest)
  = pre +:+ re_sub_block (HOSTS_TAG_START +:+ rest).
Proof.
  induction pre as [|c pre IH]; [intros _; by cbn [String.append] |].
  rewrite contains_cons. intros [Hc Hpre]%orb_false_iff.
  cbn [String.append]. rewrite re_sub_block_cons.
  change (String c (pre +:+ HOSTS_TAG_START +:+ rest))
    with (String c pre +:+ HOSTS_TAG_START +:+ rest).
  unfold Py.startswith.
  rewrite marker_no_straddle by (done || by left).
  cbn [String.append]. by rewrite IH.
Qed.

(** The substitution on preamble, block, postamble: when the preamble
    has no start marker and the body of the block no end marker, the
    block is deleted, the preamble is kept and the scan goes on in the
    postamble. *)
Lemma re_sub_block_one_block pre body post :
  Py.contains HOSTS_TAG_START pre = false →
  Py.contains HOSTS_TAG_END body = false →
  re_sub_block
    (pre +:+ HOSTS_TAG_START +:+ body +:+ HOSTS_TAG_END +:+ post)
  = pre +:+ re_sub_block post.
Proof.
  intros Hpre Hbody. rewrite re_sub_block_skip by done. f_equal.
  apply re_sub_block_start; [apply prefix_app |].
  rewrite drop_app, after_first_no_marker by (done || by right).
  apply after_first_here.
Qed.

(** X1: strip deletes exactly the tagged block.  For a document made of a
    preamble without start marker, a block whose body has no end marker
    and a postamble without a block, strip returns preamble and
    postamble, with the trailing white space replaced by a newline. *)
Theorem strip_one_block pre body post :
  Py.contains HOSTS_TAG_START pre = false →
  Py.contains HOSTS_TAG_END body = false →
  has_block post = false →
  strip_ultra_block_section
    (pre +:+ HOSTS_TAG_START +:+ body +:+ HOSTS_TAG_END +:+ post)
  = Py.rstrip (pre +:+ post) +:+ Py.nl.
Proof.
  intros Hpre Hbody Hpost. unfold strip_ultra_block_section.
  by rewrite re_sub_block_one_block, (re_sub_block_no_block post).
Qed.

Lemma strip_one_block_witness :
  strip_ultra_block_section
    (("127.0.0.1 localhost" +:+ Py.nl) +:+ HOSTS_TAG_START
     +:+ (Py.nl +:+ "127.0.0.1 EXAMPLE.com" +:+ Py.nl) +:+ HOSTS_TAG_END
     +:+ (Py.nl +:+ "::1 localhost" +:+ Py.nl +:+ Py.nl))
  = Py.rstrip (("127.0.0.1 localhost" +:+ Py.nl)
               +:+ (Py.nl +:+ "::1 localhost" +:+ Py.nl +:+ Py.nl))
    +:+ Py.nl.
Proof.
  apply (strip_one_block ("127.0.0.1 localhost" +:+ Py.nl)
           (Py.nl +:+ "127.0.0.1 EXAMPLE.com" +:+ Py.nl)
           (Py.nl +:+ "::1 localhost" +:+ Py.nl +:+ Py.nl));
    vm_compute; reflexivity.
Defined.

Lemma strip_strip s :
  has_block (strip_ultra_block_section s) = false →
  strip_ultra_block_section (strip_ultra_block_section s)
  = strip_ultra_block_section s.
Proof.
  intros H. unfold strip_ultra_block_section at 1.
  rewrite re_sub_block_no_block by done. apply rstrip_strip.
Qed.

(** X2: strip twice.  When what strip returns has no block, stripping it
    again changes nothing. *)
Theorem strip_idempotent s :
  has_block (strip_ultra_block_section s) = false →
  strip_ultra_block_section (strip_ultra_block_section s)
  = strip_ultra_block_section s.
Proof. apply strip_strip. Qed.

Lemma strip_idempotent_witness :
  strip_ultra_block_section
    (strip_ultra_block_section
       ("127.0.0.1 localhost  " +:+ HOSTS_TAG_START +:+ "x"
        +:+ HOSTS_TAG_END))
  = strip_ultra_block_section
      ("127.0.0.1 localhost  " +:+ HOSTS_TAG_START +:+ "x"
       +:+ HOSTS_TAG_END).
Proof.
  apply (strip_idempotent
           ("127.0.0.1 localhost  " +:+ HOSTS_TAG_START +:+ "x"
            +:+ HOSTS_TAG_END)).
  vm_compute. reflexivity.
Defined.

(** The precondition is needed: deleting a block can bring the two
    halves of a start marker together, and the result has a block. *)
Example strip_leaves_block :
  let s := "# === ULTRA_POMODORO_BLOCK_" +:+ HOSTS_TAG_START
           +:+ HOSTS_TAG_END +:+ "START === x" +:+ HOSTS_TAG_END in
  strip_ultra_block_section s
  = HOSTS_TAG_START +:+ " x" +:+ HOSTS_TAG_END +:+ Py.nl
  ∧ strip_ultra_block_section (strip_ultra_block_section s) = Py.nl.
Proof. vm_compute. done. Qed.

End strip_parse.

(** ** Apply and Clear: failures and sequences *)

Section hosts_more.
Implicit Types (w : world) (ds : list string) (s t : string).

Lemma apply_hosts_block_no_root ds w :
  euid_root w = false →
  apply_hosts_block ds w = ((false, Some "permission"), w).
Proof.
  intros Hroot. unfold apply_hosts_block, bind, require_root, ret.
  by rewrite Hroot.
Qed.

Lemma clear_hosts_block_no_root w :
  euid_root w = false →
  clear_hosts_block w = ((false, Some "permission"), w).
Proof.
  intros Hroot. unfold clear_hosts_block, bind, require_root, ret.
  by rewrite Hroot.
Qed.

(** The machine after a write of [text] that failed. *)
Lemma write_hosts_failed text w :
  hosts_writable w = false →
  write_hosts text w
  = (false,
     log (EvWrite text false)
       match hosts_write w with
       | WriteFails n => set_hosts (Py.take n text) w
       | _ => w
       end).
Proof.
  unfold write_hosts, hosts_writable. by destruct (hosts_write w).
Qed.

Lemma apply_hosts_block_failed ds w :
  euid_root w = true → hosts_writable w = false →
  apply_hosts_block ds w
  = ((false, Some "write_failed"),
     log (EvWrite (applied ds (hosts_text w)) false)
       match hosts_write w with
       | WriteFails n =>
           set_hosts (Py.take n (applied ds (hosts_text w))) (log EvRead w)
       | _ => log EvRead w
       end).
Proof.
  intros Hroot Hwr.
  unfold apply_hosts_block, bind, require_root, read_hosts, ret.
  rewrite Hroot. simpl. rewrite write_hosts_failed by done. done.
Qed.

Lemma clear_hosts_block_failed w :
  euid_root w = true → hosts_writable w = false →
  clear_hosts_block w
  = ((false, Some "write_failed"),
     log (EvWrite (strip_ultra_block_section (hosts_text w)) false)
       match hosts_write w with
       | WriteFails n =>
           set_hosts (Py.take n (strip_ultra_block_section (hosts_text w)))
             (log EvRead w)
       | _ => log EvRead w
       end).
Proof.
  intros Hroot Hwr.
  unfold clear_hosts_block, bind, require_root, read_hosts, ret.
  rewrite Hroot. simpl. rewrite write_hosts_failed by done. done.
Qed.



(** A write that breaks off right after the file was opened leaves it
    empty; one that breaks off after twelve characters leaves these; a
    file that cannot be opened for writing is left as it was. *)
Example write_failed_examples :
  hosts_file
    (apply_hosts_block ["example.com"]
       (failing_disk_world 0 (Some "127.0.0.1 localhost"))).2 = Some ""
  ∧ hosts_file
      (clear_hosts_block
         (failing_disk_world 12 (Some "127.0.0.1 localhost"))).2
    = Some "127.0.0.1 lo"
  ∧ hosts_file
      (apply_hosts_block ["example.com"]
         (readonly_world (Some "127.0.0.1 localhost"))).2
    = Some "127.0.0.1 localhost".
Proof. vm_compute. done. Qed.

(** X4: the last Apply wins.  As root on a writable hosts file whose
    stripped text has no start marker, Apply with one list and then
    Apply with another leaves the file that Apply with the second list
    alone leaves. *)
Theorem apply_replaces_block ds1 ds2 w :
  euid_root w = true → hosts_writable w = true →
  Py.contains HOSTS_TAG_START (strip_ultra_block_section (hosts_text w))
  = false →
  hosts_file (apply_hosts_block ds2 (apply_hosts_block ds1 w).2).2
  = hosts_file (apply_hosts_block ds2 w).2
  ∧ (apply_hosts_block ds2 (apply_hosts_block ds1 w).2).1 = (true, None).
Proof.
  intros Hroot Hwr Hstart.
  destruct (apply_hosts_block_ok ds1 w Hroot Hwr)
    as (w1 & Hap1 & Hf1 & Hroot1 & Hwr1).
  destruct (apply_hosts_block_ok ds2 w1 Hroot1 Hwr1)
    as (w12 & Hap12 & Hf12 & _ & _).
  destruct (apply_hosts_block_ok ds2 w Hroot Hwr)
    as (w2 & Hap2 & Hf2 & _ & _).
  rewrite Hap1. simpl. rewrite Hap12, Hap2. simpl. split; [|done].
  rewrite Hf12, Hf2.
  rewrite (hosts_text_applied w1 ds1 _ (hosts_text_no_cr w) Hf1). f_equal.
  unfold applied at 1. unfold applied at 1.
  rewrite strip_written_no_start_body, rstrip_strip;
    [done.. | apply body_read_no_upper].
Qed.

Lemma apply_replaces_block_witness :
  let w := root_world (Some "127.0.0.1 localhost") in
  hosts_file
    (apply_hosts_block ["b.org"] (apply_hosts_block ["a.com"] w).2).2
  = hosts_file (apply_hosts_block ["b.org"] w).2
  ∧ (apply_hosts_block ["b.org"] (apply_hosts_block ["a.com"] w).2).1
    = (true, None).
Proof.
  apply (apply_replaces_block ["a.com"] ["b.org"]
           (root_world (Some "127.0.0.1 localhost")));
    vm_compute; reflexivity.
Defined.

(** X5: Clear twice, and Clear before Apply.  As root on a writable
    hosts file whose stripped text has no block: a second Clear leaves
    the file the first Clear wrote, and Apply after Clear leaves the file
    that Apply alone leaves. *)
Theorem clear_then_again ds w :
  euid_root w = true → hosts_writable w = true →
  has_block (strip_ultra_block_section (hosts_text w)) = false →
  hosts_file (clear_hosts_block (clear_hosts_block w).2).2
  = hosts_file (clear_hosts_block w).2
  ∧ hosts_file (apply_hosts_block ds (clear_hosts_block w).2).2
    = hosts_file (apply_hosts_block ds w).2.
Proof.
  intros Hroot Hwr Hnb.
  destruct (clear_hosts_block_ok w Hroot Hwr)
    as (w1 & Hcl1 & Hf1 & Hroot1 & Hwr1).
  destruct (clear_hosts_block_ok w1 Hroot1 Hwr1)
    as (w11 & Hcl11 & Hf11 & _ & _).
  destruct (apply_hosts_block_ok ds w1 Hroot1 Hwr1)
    as (w1a & Hap1 & Hf1a & _ & _).
  destruct (apply_hosts_block_ok ds w Hroot Hwr)
    as (wa & Hap & Hfa & _ & _).
  rewrite Hcl1. simpl. rewrite Hcl11, Hap1, Hap. simpl.
  rewrite Hf11, Hf1, Hf1a, Hfa.
  rewrite (hosts_text_stripped w1 _ (hosts_text_no_cr w) Hf1).
  unfold applied. by rewrite strip_strip.
Qed.

Lemma clear_then_again_witness :
  let w := root_world (Some ("127.0.0.1 localhost  " +:+ HOSTS_TAG_START
                             +:+ "x" +:+ HOSTS_TAG_END)) in
  hosts_file (clear_hosts_block (clear_hosts_block w).2).2
  = hosts_file (clear_hosts_block w).2
  ∧ hosts_file (apply_hosts_block ["a.com"] (clear_hosts_block w).2).2
    = hosts_file (apply_hosts_block ["a.com"] w).2.
Proof.
  apply (clear_then_again ["a.com"]
           (root_world (Some ("127.0.0.1 localhost  " +:+ HOSTS_TAG_START
                              +:+ "x" +:+ HOSTS_TAG_END))));
    vm_compute; reflexivity.
Defined.

(** X6: the DNS flush.  What Apply and Clear return and what they leave
    in the hosts file do not depend on the platform; a command is run
    only on macOS and only after a write that succeeded. *)
Theorem flush_dns_only_after_write ds w b :
  (apply_hosts_block ds (with_macos b w)).1 = (apply_hosts_block ds w).1
  ∧ hosts_file (apply_hosts_block ds (with_macos b w)).2
    = hosts_file (apply_hosts_block ds w).2
  ∧ (clear_hosts_block (with_macos b w)).1 = (clear_hosts_block w).1
  ∧ hosts_file (clear_hosts_block (with_macos b w)).2
    = hosts_file (clear_hosts_block w).2
  ∧ (∀ cmd, EvRun cmd ∈ trace (apply_hosts_block ds w).2 →
            EvRun cmd ∈ trace w
            ∨ is_macos w = true
              ∧ (apply_hosts_block ds w).1 = (true, None))
  ∧ (∀ cmd, EvRun cmd ∈ trace (clear_hosts_block w).2 →
            EvRun cmd ∈ trace w
            ∨ is_macos w = true ∧ (clear_hosts_block w).1 = (true, None)).
Proof.
  unfold apply_hosts_block, clear_hosts_block, bind, require_root,
    read_hosts, write_hosts, flush_dns, ret, with_macos, hosts_text, log,
    set_hosts.
  destruct w as [root mac file wr gai tr]. simpl.
  destruct root, wr, b, mac; simpl;
    (split; [done |]); (split; [done |]); (split; [done |]);
    (split; [done |]); split; intros cmd;
    rewrite ?elem_of_app, ?list_elem_of_singleton; naive_solver.
Qed.

End hosts_more.

(** ** The normalised list: shape of the entries *)

Section expand_more.
Implicit Types (d c x y s t : string) (l ds : list string)
  (seen : gset string).

#[local] Arguments String.prefix : simpl never.

Lemma canonical_None d : canonical d = None ↔ Py.strip d = "".
Proof.
  unfold canonical. destruct (Py.strip d) as [|a s]; simpl; [done |].
  split; [done | discriminate].
Qed.

Lemma expand_one_nil d : expand_one d = [] ↔ Py.strip d = "".
Proof.
  rewrite <-canonical_None. unfold expand_one, with_www.
  destruct (canonical d); split; done.
Qed.

Lemma elem_of_expand_out ds x :
  x ∈ flat_map expand_one ds ↔ ∃ d, d ∈ ds ∧ x ∈ expand_one d.
Proof.
  rewrite list_elem_of_In, in_flat_map.
  by setoid_rewrite list_elem_of_In.
Qed.

Lemma elem_of_expand_domains ds x :
  x ∈ expand_domains ds
  ↔ ∃ d c, d ∈ ds ∧ canonical d = Some c
           ∧ (x = c ∨ x = "www." +:+ c ∧ Py.startswith c "www." = false).
Proof.
  rewrite expand_domains_dedup, elem_of_dedup, elem_of_expand_out.
  unfold expand_one, with_www. split.
  - intros [(d & Hd & Hx) _]. destruct (canonical d) as [c|] eqn:Hc;
      [|by apply elem_of_nil in Hx].
    exists d, c. split; [done |]. split; [done |].
    apply elem_of_cons in Hx as [-> | Hx]; [by left |]. right.
    destruct (Py.startswith c "www."); [by apply elem_of_nil in Hx |].
    by apply list_elem_of_singleton in Hx.
  - intros (d & c & Hd & Hc & Hx). split; [|set_solver].
    exists d. split; [done |]. rewrite Hc.
    destruct Hx as [-> | [-> ->]]; set_solver.
Qed.

Lemma split_head_no_sep (sep : ascii) s :
  Py.contains (String sep "") (Py.split_head sep s) = false.
Proof.
  induction s as [|a s IH]; simpl; [done |].
  destruct (Ascii.eqb_spec a sep) as [->|Hne]; [done |].
  rewrite contains_cons, IH, orb_false_r.
  destruct (String.prefix _ _) eqn:Hp; [|done].
  apply prefix_cons in Hp as [-> _]. done.
Qed.

Lemma contains_other_cons (a b : ascii) s :
  a ≠ b → Py.contains (String a "") (String b s) = Py.contains (String a "") s.
Proof.
  intros Hne. rewrite contains_cons.
  destruct (String.prefix _ _) eqn:Hp; [|done].
  by apply prefix_cons in Hp as [-> _].
Qed.

(** X7: the entries of the normalised list have no ASCII capital letter
    and no slash, so none starts with a scheme or carries a path. *)
Theorem expand_domains_entries ds x :
  x ∈ expand_domains ds →
  Py.no_upper x = true
  ∧ Py.contains "/" x = false
  ∧ Py.startswith x "http://" = false
  ∧ Py.startswith x "https://" = false.
Proof.
  intros Hx. split; [by apply (expand_domains_no_upper ds) |].
  assert (Py.contains "/" x = false) as Hslash.
  { apply elem_of_expand_domains in Hx as (d & c & _ & Hc & Hx).
    assert (Py.contains "/" c = false) as Hcs.
    { destruct (canonical_shape d c Hc) as [_ <-].
      apply split_head_no_sep. }
    destruct Hx as [-> | [-> _]]; [done |].
    cbn [String.append]. by rewrite !contains_other_cons. }
  split; [done |].
  split; unfold Py.startswith;
    (destruct (String.prefix _ x) eqn:Hp; [|done]);
    apply prefix_split in Hp; rewrite Hp in Hslash;
    rewrite contains_app_l in Hslash; done.
Qed.

Lemma expand_domains_entries_witness :
  Py.no_upper "www.foo.org" = true
  ∧ Py.contains "/" "www.foo.org" = false
  ∧ Py.startswith "www.foo.org" "http://" = false
  ∧ Py.startswith "www.foo.org" "https://" = false.
Proof.
  apply (expand_domains_entries ["HTTPS://Foo.org/a/b?c=1"] "www.foo.org").
  vm_compute. apply elem_of_cons. right. apply elem_of_cons. by left.
Defined.

Lemma www_form_in ds x :
  x ∈ expand_domains ds → Py.startswith x "www." = false →
  "www." +:+ x ∈ expand_domains ds.
Proof.
  intros (d & c & Hd & Hc & Hx)%elem_of_expand_domains Hwww.
  apply elem_of_expand_domains. exists d, c. split; [done |]. split; [done |].
  destruct Hx as [-> | [-> _]]; [by right |].
  unfold Py.startswith in Hwww. by rewrite prefix_app in Hwww.
Qed.

(** X8: an entry of the normalised list that does not start with [www.]
    has its [www.] form in the list too. *)
Theorem expand_domains_www_closed ds x :
  x ∈ expand_domains ds → Py.startswith x "www." = false →
  "www." +:+ x ∈ expand_domains ds.
Proof. apply www_form_in. Qed.

Lemma expand_domains_www_closed_witness :
  "www." +:+ "a.b" ∈ expand_domains ["www.a.b"; "A.B/x"].
Proof.
  apply (expand_domains_www_closed ["www.a.b"; "A.B/x"] "a.b").
  - vm_compute. apply elem_of_cons. right. apply elem_of_cons. by left.
  - reflexivity.
Defined.

(** X9: the normalised list is empty exactly when every input is empty
    or white space. *)
Theorem expand_domains_nil_iff ds :
  expand_domains ds = [] ↔ ∀ d, d ∈ ds → Py.strip d = "".
Proof.
  rewrite expand_domains_dedup. split.
  - intros Hnil d Hd. apply expand_one_nil.
    destruct (expand_one d) as [|x l] eqn:Hone; [done |].
    assert (x ∈ dedup ∅ (flat_map expand_one ds)) as Hx.
    { apply elem_of_dedup. split; [|set_solver].
      apply elem_of_expand_out. exists d. rewrite Hone. set_solver. }
    rewrite Hnil in Hx. by apply elem_of_nil in Hx.
  - intros Hds. apply dedup_seen. intros x (d & Hd & Hx)%elem_of_expand_out.
    rewrite (proj2 (expand_one_nil d) (Hds d Hd)) in Hx.
    by apply elem_of_nil in Hx.
Qed.

Lemma length_dedup seen l : length (dedup seen l) ≤ length l.
Proof.
  revert seen. induction l as [|d l IH]; intros seen; simpl; [done |].
  destruct (decide (d ∈ seen)); simpl;
    [specialize (IH seen) | specialize (IH ({[d]} ∪ seen))]; lia.
Qed.

(** X10: the normalised list has at most two entries for each input. *)
Theorem expand_domains_length ds :
  length (expand_domains ds) ≤ 2 * length ds.
Proof.
  rewrite expand_domains_dedup.
  etrans; [apply length_dedup |].
  induction ds as [|d ds IH]; [done |].
  rewrite flat_map_cons_expand, length_app.
  assert (length (expand_one d) ≤ 2).
  { unfold expand_one, with_www. repeat case_match; simpl; lia. }
  simpl in *. lia.
Qed.

(** X11: more inputs only add entries at the end.  The normalised list of
    [ds1 ++ ds2] is the normalised list of [ds1] followed by the entries
    of the normalised list of [ds2] that are not in it. *)
Theorem expand_domains_app ds1 ds2 :
  ∃ rest,
    expand_domains (ds1 ++ ds2) = expand_domains ds1 ++ rest
    ∧ ∀ x, x ∈ rest ↔ x ∈ expand_domains ds2 ∧ x ∉ expand_domains ds1.
Proof.
  rewrite !expand_domains_dedup, flat_map_app, dedup_app.
  eexists. split; [done |]. intros x.
  rewrite !elem_of_dedup, elem_of_union, elem_of_list_to_set. set_solver.
Qed.

Lemma rstrip_slash s : ∃ t, Py.rstrip (String "/" s) = String "/" t.
Proof. simpl. destruct (Py.rstrip s); eauto. Qed.

(** X12: an input that starts with a slash has the empty string as
    canonical form: the normalised list holds the empty host name and
    [www.], and the block written for it has a line without host
    name. *)
Theorem expand_domains_slash_input ds p :
  "/" +:+ p ∈ ds →
  canonical ("/" +:+ p) = Some ""
  ∧ "" ∈ expand_domains ds
  ∧ "www." ∈ expand_domains ds
  ∧ "127.0.0.1 " ∈ block_lines (expand_domains ds).
Proof.
  intros Hd.
  assert (canonical ("/" +:+ p) = Some "") as Hc.
  { unfold canonical, Py.strip. cbn [String.append Py.lstrip].
    change (Py.isspace "/") with false. cbn iota.
    destruct (rstrip_slash p) as [t ->]. done. }
  assert ("" ∈ expand_domains ds) as Hempty.
  { apply elem_of_expand_domains. exists ("/" +:+ p), "". eauto. }
  split; [done |]. split; [done |].
  split; [by apply (www_form_in ds "") |].
  rewrite block_lines_flat_map. apply elem_of_cons. right.
  apply elem_of_app. left. apply list_elem_of_In, in_flat_map.
  exists "". split; [by apply list_elem_of_In | by left].
Qed.

Lemma expand_domains_slash_input_witness :
  canonical ("/" +:+ "news") = Some ""
  ∧ "" ∈ expand_domains ["example.com"; "/news"]
  ∧ "www." ∈ expand_domains ["example.com"; "/news"]
  ∧ "127.0.0.1 " ∈ block_lines (expand_domains ["example.com"; "/news"]).
Proof.
  apply (expand_domains_slash_input ["example.com"; "/news"] "news").
  apply elem_of_cons. right. apply elem_of_cons. by left.
Defined.

Lemma isspace_lower_char (a : ascii) :
  Py.isspace (Py.lower_char a) = Py.isspace a.
Proof. by destruct a as [[] [] [] [] [] [] [] []]. Qed.

Lemma lstrip_lower s : Py.lstrip (Py.lower s) = Py.lower (Py.lstrip s).
Proof.
  induction s as [|a s IH]; simpl; [done |].
  rewrite isspace_lower_char. by destruct (Py.isspace a).
Qed.

Lemma rstrip_lower s : Py.rstrip (Py.lower s) = Py.lower (Py.rstrip s).
Proof.
  induction s as [|a s IH]; simpl; [done |].
  rewrite IH, isspace_lower_char.
  destruct (Py.rstrip s); simpl; [by destruct (Py.isspace a) | done].
Qed.

Lemma canonical_lower d : canonical (Py.lower d) = canonical d.
Proof.
  unfold canonical, Py.strip.
  by rewrite lstrip_lower, rstrip_lower, lower_idem.
Qed.

Lemma lstrip_idem s : Py.lstrip (Py.lstrip s) = Py.lstrip s.
Proof.
  induction s as [|a s IH]; simpl; [done |].
  destruct (Py.isspace a) eqn:Ha; [done | simpl; by rewrite Ha].
Qed.

Lemma lstrip_rstrip_fixed t :
  Py.lstrip t = t → Py.lstrip (Py.rstrip t) = Py.rstrip t.
Proof.
  destruct t as [|a t]; [done |]. simpl.
  destruct (Py.isspace a) eqn:Ha.
  - intros H%(f_equal String.length). pose proof (lstrip_length t).
    simpl in H. lia.
  - intros _. destruct (Py.rstrip t); simpl; by rewrite Ha.
Qed.

Lemma strip_idem s : Py.strip (Py.strip s) = Py.strip s.
Proof.
  unfold Py.strip.
  by rewrite (lstrip_rstrip_fixed _ (lstrip_idem s)), rstrip_idem.
Qed.

(** X13: letter case and white space around an input do not matter: the
    lower-cased inputs, and the stripped inputs, have the normalised list
    of the inputs. *)
Theorem expand_domains_case_space ds :
  expand_domains (Py.lower <$> ds) = expand_domains ds
  ∧ expand_domains (Py.strip <$> ds) = expand_domains ds.
Proof.
  assert (∀ f : string → string, (∀ d, canonical (f d) = canonical d) →
            expand_domains (f <$> ds) = expand_domains ds) as Hext.
  { intros f Hf. rewrite !expand_domains_dedup. f_equal.
    induction ds as [|d ds IH]; [done |].
    rewrite fmap_cons, !flat_map_cons_expand, IH. f_equal.
    unfold expand_one. by rewrite Hf. }
  split; apply Hext; intros d.
  - apply canonical_lower.
  - unfold canonical. by rewrite strip_idem.
Qed.

End expand_more.

(** ** The routes *)

Section routes.
Implicit Types (w : world) (body domains : json) (ds : list string).

Lemma apply_hosts_block_dyn_typed domains ds w :
  domain_strings domains = Some ds →
  apply_hosts_block_dyn domains w
  = (Some (apply_hosts_block ds w).1, (apply_hosts_block ds w).2).
Proof.
  intros H. unfold apply_hosts_block_dyn, bind, ret. rewrite H.
  by destruct (apply_hosts_block ds w).
Qed.

(** What [jsonify] makes of the dicts the routes build. *)
Lemma jsonify_strs (l : list string) :
  jsonify (JList (JStr <$> l)) = JList (JStr <$> l).
Proof.
  cbn [jsonify]. f_equal. induction l as [|x l IH]; [done |].
  cbn [fmap list_fmap map] in *. by rewrite IH.
Qed.

Lemma jsonify_error e :
  jsonify (JDict [("ok", JBool false); ("error", JStr e)])
  = JDict [("error", JStr e); ("ok", JBool false)].
Proof. reflexivity. Qed.

Lemma jsonify_ok : jsonify (JDict [("ok", JBool true)]) = JDict [("ok", JBool true)].
Proof. reflexivity. Qed.

Lemma jsonify_ok_domains (l : list string) :
  jsonify (JDict [("ok", JBool true); ("domains", JList (JStr <$> l))])
  = JDict [("domains", JList (JStr <$> l)); ("ok", JBool true)].
Proof. rewrite <-(jsonify_strs l) at 2. reflexivity. Qed.

Lemma jsonify_ok_resolutions (items : list (string * json)) :
  jsonify (JDict [("ok", JBool true); ("resolutions", JDict items)])
  = JDict [("ok", JBool true); ("resolutions", jsonify (JDict items))].
Proof. reflexivity. Qed.

Lemma jsonify_resolutions (f : string → list string) (l : list string) :
  jsonify (JDict ((λ d, (d, JList (JStr <$> f d))) <$> l))
  = JDict (merge_sort key_le ((λ d, (d, JList (JStr <$> f d))) <$> l)).
Proof.
  cbn [jsonify]. do 2 f_equal.
  induction l as [|d l IH]; [done |].
  cbn [fmap list_fmap map] in *. rewrite IH. do 2 f_equal.
  apply jsonify_strs.
Qed.

#[local] Arguments jsonify : simpl never.

Lemma api_block_apply_typed body domains ds w :
  get_domains body = Some domains → domain_strings domains = Some ds →
  api_block_apply body w
  = (Some (if negb (apply_hosts_block ds w).1.1
           then error_response (apply_hosts_block ds w).1.2
           else {| status := 200;
                   payload :=
                     JDict [("domains",
                             JList (JStr <$> expand_domains ds));
                            ("ok", JBool true)] |}),
     (apply_hosts_block ds w).2).
Proof.
  intros Hget Hds. unfold api_block_apply. rewrite Hget.
  unfold bind. rewrite (apply_hosts_block_dyn_typed _ ds) by done.
  destruct (apply_hosts_block ds w) as [[[] err] w']; simpl;
    by rewrite ?Hds, ?jsonify_ok_domains.
Qed.

Lemma api_block_clear_eq w :
  api_block_clear w
  = (Some (if negb (clear_hosts_block w).1.1
           then error_response (clear_hosts_block w).1.2
           else {| status := 200; payload := JDict [("ok", JBool true)] |}),
     (clear_hosts_block w).2).
Proof.
  unfold api_block_clear, bind.
  by destruct (clear_hosts_block w) as [[[] err] w'].
Qed.

Lemma error_response_permission :
  error_response (Some "permission")
  = {| status := 403;
       payload := JDict [("error", JStr "permission");
                         ("ok", JBool false)] |}.
Proof. reflexivity. Qed.

Lemma error_response_write_failed :
  error_response (Some "write_failed")
  = {| status := 500;
       payload := JDict [("error", JStr "write_failed");
                         ("ok", JBool false)] |}.
Proof. reflexivity. Qed.

(** X14: the answers of [/api/block/apply] to a request whose domains
    are strings, with the keys in the order [jsonify] gives them.
    Without root: 403 and [permission], and the machine is as it was.
    As root when the write fails: 500 and [write_failed]; the hosts file
    is as it was when it could not be opened, and holds the part of the
    new text that had reached it when the write broke off later.  As
    root when the write succeeds: 200, the normalised domains, and the
    hosts file holds the stripped text that was read and the block
    written for exactly these domains. *)
Theorem api_block_apply_answers body domains ds w :
  get_domains body = Some domains → domain_strings domains = Some ds →
  (euid_root w = false →
     api_block_apply body w
     = (Some {| status := 403;
                payload := JDict [("error", JStr "permission");
                                  ("ok", JBool false)] |}, w))
  ∧ (euid_root w = true → hosts_writable w = false →
     (api_block_apply body w).1
     = Some {| status := 500;
               payload := JDict [("error", JStr "write_failed");
                                 ("ok", JBool false)] |}
     ∧ (hosts_write w = OpenFails →
        hosts_file (api_block_apply body w).2 = hosts_file w)
     ∧ (∀ n, hosts_write w = WriteFails n →
        hosts_file (api_block_apply body w).2
        = Some (Py.take n (applied ds (hosts_text w)))))
  ∧ (euid_root w = true → hosts_writable w = true →
     (api_block_apply body w).1
     = Some {| status := 200;
               payload := JDict [("domains",
                                  JList (JStr <$> expand_domains ds));
                                 ("ok", JBool true)] |}
     ∧ hosts_file (api_block_apply body w).2
       = Some (strip_ultra_block_section (hosts_text w) +:+ Py.nl
               +:+ String.concat Py.nl (block_lines (expand_domains ds))
               +:+ Py.nl)).
Proof.
  intros Hget Hds. rewrite (api_block_apply_typed _ _ _ _ Hget Hds).
  split; [|split].
  - intros Hroot. by rewrite apply_hosts_block_no_root.
  - intros Hroot Hwr. rewrite apply_hosts_block_failed by done.
    split; [done |]. split; [by intros -> | by intros n ->].
  - intros Hroot Hwr.
    by destruct (apply_hosts_block_ok ds w Hroot Hwr) as (w' & -> & Hf & _).
Qed.

Lemma api_block_apply_answers_witness :
  let body := JDict [("domains", JList [JStr "Example.com"; JNull])] in
  let ds := ["Example.com"; ""] in
  let w := root_world (Some "127.0.0.1 localhost") in
  (euid_root w = false →
     api_block_apply body w
     = (Some {| status := 403;
                payload := JDict [("error", JStr "permission");
                                  ("ok", JBool false)] |}, w))
  ∧ (euid_root w = true → hosts_writable w = false →
     (api_block_apply body w).1
     = Some {| status := 500;
               payload := JDict [("error", JStr "write_failed");
                                 ("ok", JBool false)] |}
     ∧ (hosts_write w = OpenFails →
        hosts_file (api_block_apply body w).2 = hosts_file w)
     ∧ (∀ n, hosts_write w = WriteFails n →
        hosts_file (api_block_apply body w).2
        = Some (Py.take n (applied ds (hosts_text w)))))
  ∧ (euid_root w = true → hosts_writable w = true →
     (api_block_apply body w).1
     = Some {| status := 200;
               payload := JDict [("domains",
                                  JList (JStr <$> expand_domains ds));
                                 ("ok", JBool true)] |}
     ∧ hosts_file (api_block_apply body w).2
       = Some (strip_ultra_block_section (hosts_text w) +:+ Py.nl
               +:+ String.concat Py.nl (block_lines (expand_domains ds))
               +:+ Py.nl)).
Proof.
  apply (api_block_apply_answers
           (JDict [("domains", JList [JStr "Example.com"; JNull])])
           (JList [JStr "Example.com"; JNull]) ["Example.com"; ""]
           (root_world (Some "127.0.0.1 localhost")));
    reflexivity.
Defined.

(** The three answers on three machines. *)
Example api_block_apply_examples :
  let body := JDict [("domains", JList [JStr "Example.com"])] in
  (api_block_apply body (user_world (Some "127.0.0.1 localhost"))).1
  = Some {| status := 403;
            payload := JDict [("error", JStr "permission");
                              ("ok", JBool false)] |}
  ∧ (api_block_apply body
       (failing_disk_world 0 (Some "127.0.0.1 localhost"))).1
    = Some {| status := 500;
              payload := JDict [("error", JStr "write_failed");
                                ("ok", JBool false)] |}
  ∧ hosts_file
      (api_block_apply body
         (failing_disk_world 0 (Some "127.0.0.1 localhost"))).2
    = Some ""
  ∧ (api_block_apply body (root_world (Some "127.0.0.1 localhost"))).1
    = Some {| status := 200;
              payload := JDict [("domains",
                                 JList [JStr "example.com";
                                        JStr "www.example.com"]);
                                ("ok", JBool true)] |}.
Proof. vm_compute. done. Qed.

(** X15: a request whose domains cannot be normalised (a number in the
    list, a number for the list).  Without root the answer is still 403
    and [permission]; as root the view raises before the hosts file is
    opened: the machine is as it was. *)
Theorem api_block_apply_untyped body domains w :
  get_domains body = Some domains → domain_strings domains = None →
  (euid_root w = false →
     api_block_apply body w
     = (Some {| status := 403;
                payload := JDict [("error", JStr "permission");
                                  ("ok", JBool false)] |}, w))
  ∧ (euid_root w = true → api_block_apply body w = (None, w)).
Proof.
  intros Hget Hds.
  unfold api_block_apply, apply_hosts_block_dyn, bind, ret, require_root.
  rewrite Hget, Hds. split; by intros ->.
Qed.

Lemma api_block_apply_untyped_witness :
  let body := JDict [("domains", JList [JStr "a.com"; JNum 7])] in
  (euid_root (root_world None) = false →
     api_block_apply body (root_world None)
     = (Some {| status := 403;
                payload := JDict [("error", JStr "permission");
                                  ("ok", JBool false)] |},
        root_world None))
  ∧ (euid_root (root_world None) = true →
     api_block_apply body (root_world None) = (None, root_world None)).
Proof.
  apply (api_block_apply_untyped
           (JDict [("domains", JList [JStr "a.com"; JNum 7])])
           (JList [JStr "a.com"; JNum 7]) (root_world None));
    reflexivity.
Defined.

(** What [get_domains] and [domain_strings] make of some bodies: a
    missing key and an empty body give no domain, [null] in the list
    counts as the empty string, a string is read character by
    character. *)
Example domain_strings_examples :
  (get_domains JNull ≫= domain_strings) = Some []
  ∧ (get_domains (JDict [("other", JNum 1)]) ≫= domain_strings) = Some []
  ∧ (get_domains (JDict [("domains", JNull)]) ≫= domain_strings) = Some []
  ∧ (get_domains (JDict [("domains", JList [JNull; JStr "a.b"])])
       ≫= domain_strings) = Some [""; "a.b"]
  ∧ (get_domains (JDict [("domains", JStr "a.b")]) ≫= domain_strings)
    = Some ["a"; "."; "b"]
  ∧ (get_domains (JDict [("domains", JNum 3)]) ≫= domain_strings) = None
  ∧ get_domains (JList [JStr "a.b"]) = None.
Proof. vm_compute. done. Qed.

Lemma resolve_each_spec (l : list string) w :
  resolve_each l w
  = ((λ d, (d, JList (JStr <$> (resolve_all d w).1))) <$> l, w).
Proof.
  induction l as [|d l IH]; [done |].
  cbn [resolve_each]. unfold bind at 1.
  change (resolve_all d w) with ((resolve_all d w).1, w).
  unfold bind. by rewrite IH.
Qed.

(** X16: [/api/block/test] needs no root and changes nothing.  For a
    request whose domains are strings it answers 200 with one item for
    each entry of the normalised list and no other, no key twice; the
    items come in the order of their keys, which need not be the order
    of the normalised list; the item of [d] holds what [resolve_all d]
    returns. *)
Theorem api_block_test_answer body domains ds w :
  get_domains body = Some domains → domain_strings domains = Some ds →
  ∃ items,
    api_block_test body w
    = (Some {| status := 200;
               payload := JDict [("ok", JBool true);
                                 ("resolutions", JDict items)] |}, w)
    ∧ items.*1 ≡ₚ expand_domains ds
    ∧ NoDup items.*1
    ∧ StronglySorted String.le items.*1
    ∧ ∀ d v, (d, v) ∈ items
             ↔ d ∈ expand_domains ds
               ∧ v = JList (JStr <$> (resolve_all d w).1).
Proof.
  intros Hget Hds. unfold api_block_test. rewrite Hget, Hds.
  unfold bind, ret. rewrite resolve_each_spec.
  pose proof (jsonify_resolutions (λ d, (resolve_all d w).1)
                (expand_domains ds)) as HJ.
  cbn beta in HJ. rewrite jsonify_ok_resolutions, HJ. clear HJ.
  set (R := (λ d, (d, JList (JStr <$> (resolve_all d w).1)))
            <$> expand_domains ds).
  assert (R.*1 = expand_domains ds) as HR.
  { unfold R. rewrite <-list_fmap_compose. apply list_fmap_id. }
  assert (Total key_le) as Htotal.
  { intros a b. apply (total String.le). }
  eexists. split; [done |]. split; [|split; [|split]].
  - by rewrite merge_sort_Permutation, HR.
  - rewrite merge_sort_Permutation, HR, expand_domains_dedup.
    apply NoDup_dedup.
  - apply Sorted_StronglySorted; [apply _ |].
    apply Sorted_fmap with (R1 := key_le); [done |].
    by apply Sorted_merge_sort.
  - intros d v. rewrite merge_sort_Permutation. unfold R.
    rewrite list_elem_of_fmap. split.
    + by intros (d' & [= -> ->] & Hd).
    + intros [Hd ->]. by exists d.
Qed.

Lemma api_block_test_answer_witness :
  ∃ items,
    api_block_test (JDict [("domains", JList [JStr "Example.com"])])
      resolver_world
    = (Some {| status := 200;
               payload := JDict [("ok", JBool true);
                                 ("resolutions", JDict items)] |},
       resolver_world)
    ∧ items.*1 ≡ₚ expand_domains ["Example.com"]
    ∧ NoDup items.*1
    ∧ StronglySorted String.le items.*1
    ∧ ∀ d v, (d, v) ∈ items
             ↔ d ∈ expand_domains ["Example.com"]
               ∧ v = JList (JStr <$> (resolve_all d resolver_world).1).
Proof.
  apply (api_block_test_answer
           (JDict [("domains", JList [JStr "Example.com"])])
           (JList [JStr "Example.com"]) ["Example.com"] resolver_world);
    reflexivity.
Defined.

(** The answer for [Example.com] on the example resolver. *)
Example api_block_test_example :
  (api_block_test (JDict [("domains", JList [JStr "Example.com"])])
     resolver_world).1
  = Some {| status := 200;
            payload :=
              JDict [("ok", JBool true);
                     ("resolutions",
                      JDict [("example.com",
                              JList [JStr "2606:2800:220:1::1";
                                     JStr "93.184.216.34"]);
                             ("www.example.com", JList [])])] |}.
Proof. vm_compute. reflexivity. Qed.

(** The items of the answer are in the order of the keys: for
    [b.example] then [a.example] the normalised list starts with
    [b.example], the answer with [a.example]. *)
Example api_block_test_sorted :
  expand_domains ["b.example"; "a.example"]
  = ["b.example"; "www.b.example"; "a.example"; "www.a.example"]
  ∧ (api_block_test
       (JDict [("domains", JList [JStr "b.example"; JStr "a.example"])])
       resolver_world).1
    = Some {| status := 200;
              payload :=
                JDict [("ok", JBool true);
                       ("resolutions",
                        JDict [("a.example", JList []);
                               ("b.example", JList []);
                               ("www.a.example", JList []);
                               ("www.b.example", JList [])])] |}.
Proof. vm_compute. done. Qed.

(** X17: [/api/block/clear] answers 403 without root, 500 when the write
    fails and 200 when it succeeds; after a 500 the hosts file is as it
    was when it could not be opened, and holds the part of the stripped
    text that had reached it when the write broke off later.
    [/api/block/flush] always answers 200, whoever runs the server, and
    neither reads nor writes the hosts file. *)
Theorem api_block_clear_flush_answers w :
  (euid_root w = false →
     api_block_clear w
     = (Some {| status := 403;
                payload := JDict [("error", JStr "permission");
                                  ("ok", JBool false)] |}, w))
  ∧ (euid_root w = true → hosts_writable w = false →
     (api_block_clear w).1
     = Some {| status := 500;
               payload := JDict [("error", JStr "write_failed");
                                 ("ok", JBool false)] |}
     ∧ (hosts_write w = OpenFails →
        hosts_file (api_block_clear w).2 = hosts_file w)
     ∧ (∀ n, hosts_write w = WriteFails n →
        hosts_file (api_block_clear w).2
        = Some (Py.take n (strip_ultra_block_section (hosts_text w)))))
  ∧ (euid_root w = true → hosts_writable w = true →
     (api_block_clear w).1
     = Some {| status := 200; payload := JDict [("ok", JBool true)] |}
     ∧ hosts_file (api_block_clear w).2
       = Some (strip_ultra_block_section (hosts_text w)))
  ∧ (api_block_flush w).1
    = Some {| status := 200; payload := JDict [("ok", JBool true)] |}
  ∧ hosts_file (api_block_flush w).2 = hosts_file w
  ∧ (∀ e, e ∈ trace (api_block_flush w).2 →
          e ∈ trace w ∨ ∃ cmd, e = EvRun cmd).
Proof.
  rewrite api_block_clear_eq. unfold api_block_flush.
  split; [|split; [|split]].
  - intros Hroot. by rewrite clear_hosts_block_no_root.
  - intros Hroot Hwr. rewrite clear_hosts_block_failed by done.
    split; [done |]. split; [by intros -> | by intros n ->].
  - intros Hroot Hwr.
    by destruct (clear_hosts_block_ok w Hroot Hwr) as (w' & -> & Hf & _).
  - unfold bind, flush_dns, ret.
    destruct (is_macos w); simpl; repeat split; try done; intros e;
      rewrite ?elem_of_app, ?list_elem_of_singleton; naive_solver.
Qed.

End routes.

(** ** Room membership *)

Section membership.
Implicit Types (sid room room_id token : string) (data : json)
  (s : Sio.state).

Lemma members_join sid room room' s :
  Sio.members room' (Sio.join_room sid room s)
  = if decide (room' = room) then {[sid]} ∪ Sio.members room s
    else Sio.members room' s.
Proof.
  unfold Sio.members, Sio.join_room. simpl. case_decide as Hr.
  - subst. by rewrite lookup_insert_eq.
  - by rewrite lookup_insert_ne.
Qed.

Lemma members_join_same sid room s :
  Sio.members room (Sio.join_room sid room s) = {[sid]} ∪ Sio.members room s.
Proof. by rewrite members_join, decide_True. Qed.

Lemma members_leave sid room room' s :
  Sio.members room' (Sio.leave_room sid room s)
  = if decide (room' = room) then Sio.members room s ∖ {[sid]}
    else Sio.members room' s.
Proof.
  unfold Sio.leave_room. fold (Sio.members room s).
  unfold Sio.members at 1. simpl.
  destruct (decide (Sio.members room s ∖ {[sid]} = ∅)) as [He|He];
    case_decide as Hr; subst.
  - by rewrite lookup_delete_eq, He.
  - by rewrite lookup_delete_ne.
  - by rewrite lookup_insert_eq.
  - by rewrite lookup_insert_ne.
Qed.

Lemma members_emit event data room skip room' s :
  Sio.members room' (Sio.emit event data room skip s) = Sio.members room' s.
Proof. done. Qed.

Lemma members_lookup room s :
  Sio.rooms s !! room ≠ Some ∅ →
  Sio.rooms s !! room
  = if decide (Sio.members room s = ∅) then None
    else Some (Sio.members room s).
Proof.
  unfold Sio.members. intros Hne.
  destruct (Sio.rooms s !! room) as [m|] eqn:Hm; simpl.
  - rewrite decide_False; [done | congruence].
  - by rewrite decide_True.
Qed.

(** X18: a join with a room id.  The connection is a member of the room
    afterwards and the other rooms are as they were; the reply carries
    the number of members after the join; [room:joined] goes to the
    connection's own room and [room:members], with the same count, to
    every member of the room, the new one included. *)
Theorem room_join_adds sid data s room_id :
  room_id_of data = Some room_id → room_id ≠ "" →
  let r := on_room_join sid data s in
  let n := Z.of_nat (size ({[sid]} ∪ Sio.members room_id s)) in
  let info := JDict [("roomId", JStr room_id); ("members", JNum n)] in
  Sio.members room_id r.2 = {[sid]} ∪ Sio.members room_id s
  ∧ (∀ room, room ≠ room_id → Sio.members room r.2 = Sio.members room s)
  ∧ r.1 = Some (JDict [("ok", JBool true); ("roomId", JStr room_id);
                       ("members", JNum n)])
  ∧ Sio.outbox r.2
    = Sio.outbox s
      ++ [{| Sio.msg_to := Sio.members sid r.2;
             Sio.msg_event := "room:joined"; Sio.msg_data := info |};
          {| Sio.msg_to := {[sid]} ∪ Sio.members room_id s;
             Sio.msg_event := "room:members"; Sio.msg_data := info |}].
Proof.
  intros Hid Hne%String.eqb_neq. unfold on_room_join.
  rewrite Hid, Hne. simpl.
  unfold room_ok, room_info, members_in.
  rewrite !members_emit, !members_join, !decide_True by done.
  repeat split; try done.
  - intros room Hroom.
    by rewrite !members_emit, members_join, decide_False.
  - by rewrite <-(assoc_L (++)).
Qed.

Lemma room_join_adds_witness :
  let data := JDict [("roomId", JStr "abc")] in
  let r := on_room_join "C" data two_in_abc in
  let n := Z.of_nat (size ({["C"]} ∪ Sio.members "abc" two_in_abc)) in
  let info := JDict [("roomId", JStr "abc"); ("members", JNum n)] in
  Sio.members "abc" r.2 = {["C"]} ∪ Sio.members "abc" two_in_abc
  ∧ (∀ room, room ≠ "abc" →
             Sio.members room r.2 = Sio.members room two_in_abc)
  ∧ r.1 = Some (JDict [("ok", JBool true); ("roomId", JStr "abc");
                       ("members", JNum n)])
  ∧ Sio.outbox r.2
    = Sio.outbox two_in_abc
      ++ [{| Sio.msg_to := Sio.members "C" r.2;
             Sio.msg_event := "room:joined"; Sio.msg_data := info |};
          {| Sio.msg_to := {["C"]} ∪ Sio.members "abc" two_in_abc;
             Sio.msg_event := "room:members"; Sio.msg_data := info |}].
Proof.
  apply (room_join_adds "C" (JDict [("roomId", JStr "abc")]) two_in_abc
           "abc"); [reflexivity | discriminate].
Defined.

(** X19: the count a join reports.  A connection that is not in the
    room yet makes the count one more than it was; a connection that is
    in the room already leaves the count and the rooms as they were. *)
Theorem room_join_count sid data s room_id :
  room_id_of data = Some room_id → room_id ≠ "" →
  let r := on_room_join sid data s in
  (sid ∉ Sio.members room_id s →
     members_in room_id r.2 = (members_in room_id s + 1)%Z)
  ∧ (sid ∈ Sio.members room_id s →
     members_in room_id r.2 = members_in room_id s
     ∧ Sio.rooms r.2 = Sio.rooms s).
Proof.
  intros Hid Hne%String.eqb_neq. unfold on_room_join.
  rewrite Hid, Hne. simpl. unfold members_in.
  rewrite !members_emit, !members_join, !decide_True by done. split.
  - intros Hnot. rewrite size_union, size_singleton by set_solver. lia.
  - intros Hin.
    assert ({[sid]} ∪ Sio.members room_id s = Sio.members room_id s)
      as Heq by set_solver.
    rewrite Heq. split; [done |].
    apply insert_id. unfold Sio.members in Hin |- *.
    destruct (Sio.rooms s !! room_id); [done | set_solver].
Qed.

Lemma room_join_count_witness :
  let data := JDict [("roomId", JStr "abc")] in
  let r := on_room_join "C" data two_in_abc in
  ("C" ∉ Sio.members "abc" two_in_abc →
     members_in "abc" r.2 = (members_in "abc" two_in_abc + 1)%Z)
  ∧ ("C" ∈ Sio.members "abc" two_in_abc →
     members_in "abc" r.2 = members_in "abc" two_in_abc
     ∧ Sio.rooms r.2 = Sio.rooms two_in_abc).
Proof.
  apply (room_join_count "C" (JDict [("roomId", JStr "abc")]) two_in_abc
           "abc"); [reflexivity | discriminate].
Defined.

(** X20: a leave with a room id.  The connection is no member of the
    room afterwards, the other members and the other rooms are as they
    were; [room:members] is emitted first and goes to the members that
    remain, not to the connection that left; [room:left] goes to the
    connection's own room. *)
Theorem room_leave_removes sid data s room_id :
  room_id_of data = Some room_id → room_id ≠ "" →
  let r := on_room_leave sid data s in
  let n := Z.of_nat (size (Sio.members room_id s ∖ {[sid]})) in
  let info := JDict [("roomId", JStr room_id); ("members", JNum n)] in
  Sio.members room_id r.2 = Sio.members room_id s ∖ {[sid]}
  ∧ (∀ room, room ≠ room_id → Sio.members room r.2 = Sio.members room s)
  ∧ r.1 = Some (JDict [("ok", JBool true); ("roomId", JStr room_id);
                       ("members", JNum n)])
  ∧ Sio.outbox r.2
    = Sio.outbox s
      ++ [{| Sio.msg_to := Sio.members room_id s ∖ {[sid]};
             Sio.msg_event := "room:members"; Sio.msg_data := info |};
          {| Sio.msg_to := Sio.members sid r.2;
             Sio.msg_event := "room:left"; Sio.msg_data := info |}].
Proof.
  intros Hid Hne%String.eqb_neq. unfold on_room_leave.
  rewrite Hid, Hne. simpl.
  unfold room_ok, room_info, members_in.
  rewrite !members_emit, !members_leave, !decide_True by done.
  repeat split; try done.
  - intros room Hroom.
    by rewrite !members_emit, members_leave, decide_False.
  - by rewrite <-(assoc_L (++)).
Qed.

Lemma room_leave_removes_witness :
  let data := JDict [("roomId", JStr "abc")] in
  let r := on_room_leave "A" data two_in_abc in
  let n := Z.of_nat (size (Sio.members "abc" two_in_abc ∖ {["A"]})) in
  let info := JDict [("roomId", JStr "abc"); ("members", JNum n)] in
  Sio.members "abc" r.2 = Sio.members "abc" two_in_abc ∖ {["A"]}
  ∧ (∀ room, room ≠ "abc" →
             Sio.members room r.2 = Sio.members room two_in_abc)
  ∧ r.1 = Some (JDict [("ok", JBool true); ("roomId", JStr "abc");
                       ("members", JNum n)])
  ∧ Sio.outbox r.2
    = Sio.outbox two_in_abc
      ++ [{| Sio.msg_to := Sio.members "abc" two_in_abc ∖ {["A"]};
             Sio.msg_event := "room:members"; Sio.msg_data := info |};
          {| Sio.msg_to := Sio.members "A" r.2;
             Sio.msg_event := "room:left"; Sio.msg_data := info |}].
Proof.
  apply (room_leave_removes "A" (JDict [("roomId", JStr "abc")]) two_in_abc
           "abc"); [reflexivity | discriminate].
Defined.

(** X21: join then leave.  When the connection was not in the room and
    the server has no room without members, a join followed by a leave
    of the same room gives back the rooms as they were. *)
Theorem room_join_then_leave sid data s room_id :
  room_id_of data = Some room_id → room_id ≠ "" →
  sid ∉ Sio.members room_id s → no_empty_room s →
  Sio.rooms (on_room_leave sid data (on_room_join sid data s).2).2
  = Sio.rooms s.
Proof.
  intros Hid Hne%String.eqb_neq Hnot Hwf.
  unfold on_room_leave, on_room_join. rewrite Hid, Hne. simpl.
  unfold Sio.leave_room. rewrite !members_emit, members_join_same. simpl.
  assert (({[sid]} ∪ Sio.members room_id s) ∖ {[sid]}
          = Sio.members room_id s) as -> by set_solver.
  pose proof (members_lookup room_id s (Hwf room_id)) as Hlook.
  destruct (decide (Sio.members room_id s = ∅)).
  - rewrite delete_insert_eq. by apply delete_id.
  - rewrite insert_insert_eq. by apply insert_id.
Qed.

Lemma no_empty_two_in_abc : no_empty_room two_in_abc.
Proof.
  intros room. unfold two_in_abc. simpl.
  rewrite !lookup_insert, lookup_singleton.
  repeat case_decide; try done; intros [= H]; set_solver.
Qed.

Lemma room_join_then_leave_witness :
  Sio.rooms
    (on_room_leave "C" (JDict [("roomId", JStr "abc")])
       (on_room_join "C" (JDict [("roomId", JStr "abc")]) two_in_abc).2).2
  = Sio.rooms two_in_abc.
Proof.
  apply (room_join_then_leave "C" (JDict [("roomId", JStr "abc")])
           two_in_abc "abc");
    [reflexivity | discriminate | by vm_compute | apply no_empty_two_in_abc].
Defined.

Lemma no_empty_join sid room s :
  no_empty_room s → no_empty_room (Sio.join_room sid room s).
Proof.
  intros Hwf room'. unfold Sio.join_room. simpl.
  destruct (decide (room' = room)) as [->|].
  - rewrite lookup_insert_eq. intros [= H]. set_solver.
  - rewrite lookup_insert_ne by done. apply Hwf.
Qed.

Lemma no_empty_leave sid room s :
  no_empty_room s → no_empty_room (Sio.leave_room sid room s).
Proof.
  intros Hwf room'. unfold Sio.leave_room. simpl.
  case_decide as He; destruct (decide (room' = room)) as [->|].
  - by rewrite lookup_delete_eq.
  - rewrite lookup_delete_ne by done. apply Hwf.
  - rewrite lookup_insert_eq. congruence.
  - rewrite lookup_insert_ne by done. apply Hwf.
Qed.

(** X22: the handlers keep the server free of rooms without members. *)
Theorem handlers_keep_rooms_inhabited token sid data s :
  no_empty_room s →
  no_empty_room (on_room_join sid data s).2
  ∧ no_empty_room (on_room_create token sid data s).2
  ∧ no_empty_room (on_room_leave sid data s).2
  ∧ no_empty_room (on_timer_sync sid data s).2
  ∧ no_empty_room (on_timer_penalty sid data s).2.
Proof.
  intros Hwf.
  unfold on_room_join, on_room_create, on_room_leave, on_timer_sync,
    on_timer_penalty.
  destruct (room_id_of data) as [room_id|]; [|done].
  destruct (String.eqb room_id ""); simpl;
    repeat split; try done;
    intros room; simpl;
    solve [ apply (no_empty_join _ _ _ Hwf) | apply (no_empty_leave _ _ _ Hwf) ].
Qed.

Lemma handlers_keep_rooms_inhabited_witness :
  let data := JDict [("roomId", JStr "abc")] in
  no_empty_room (on_room_join "A" data two_in_abc).2
  ∧ no_empty_room (on_room_create "0a1b2c" "A" data two_in_abc).2
  ∧ no_empty_room (on_room_leave "A" data two_in_abc).2
  ∧ no_empty_room (on_timer_sync "A" data two_in_abc).2
  ∧ no_empty_room (on_timer_penalty "A" data two_in_abc).2.
Proof.
  apply (handlers_keep_rooms_inhabited "0a1b2c" "A"
           (JDict [("roomId", JStr "abc")]) two_in_abc).
  apply no_empty_two_in_abc.
Defined.

(** X23: [room:create].  Without a room id in the payload the room is
    ["room-"] followed by the token drawn, the reply is a success and the
    connection is a member of that room; with a room id, the reply and
    the rooms are those of a join, and the messages differ in the name
    of the first event only. *)
Theorem room_create_as_join token sid data s room_id :
  room_id_of data = Some room_id →
  (room_id = "" →
     let r := on_room_create token sid data s in
     sid ∈ Sio.members ("room-" +:+ token) r.2
     ∧ r.1 = Some (JDict [("ok", JBool true);
                          ("roomId", JStr ("room-" +:+ token));
                          ("members", JNum (members_in ("room-" +:+ token)
                                              r.2))]))
  ∧ (room_id ≠ "" →
     let c := on_room_create token sid data s in
     let j := on_room_join sid data s in
     c.1 = j.1 ∧ Sio.rooms c.2 = Sio.rooms j.2
     ∧ ∃ m1 m2,
         Sio.outbox j.2 = Sio.outbox s ++ [m1; m2]
         ∧ Sio.msg_event m1 = "room:joined"
         ∧ Sio.outbox c.2
           = Sio.outbox s
             ++ [{| Sio.msg_to := Sio.msg_to m1;
                    Sio.msg_event := "room:created";
                    Sio.msg_data := Sio.msg_data m1 |}; m2]).
Proof.
  intros Hid. unfold on_room_create, on_room_join. rewrite Hid. split.
  - intros ->. simpl. split; [|done].
    rewrite !members_emit, members_join, decide_True by done. set_solver.
  - intros Hne%String.eqb_neq. rewrite Hne. simpl.
    repeat split; try done.
    eexists _, _. rewrite <-!(assoc_L (++)). simpl. eauto.
Qed.

Lemma room_create_as_join_witness :
  let data := JDict [("mode", JStr "focus")] in
  ("" = "" →
     let r := on_room_create "0a1b2c" "A" data two_in_abc in
     "A" ∈ Sio.members ("room-" +:+ "0a1b2c") r.2
     ∧ r.1 = Some (JDict [("ok", JBool true);
                          ("roomId", JStr ("room-" +:+ "0a1b2c"));
                          ("members",
                           JNum (members_in ("room-" +:+ "0a1b2c") r.2))]))
  ∧ ("" ≠ "" →
     let c := on_room_create "0a1b2c" "A" data two_in_abc in
     let j := on_room_join "A" data two_in_abc in
     c.1 = j.1 ∧ Sio.rooms c.2 = Sio.rooms j.2
     ∧ ∃ m1 m2,
         Sio.outbox j.2 = Sio.outbox two_in_abc ++ [m1; m2]
         ∧ Sio.msg_event m1 = "room:joined"
         ∧ Sio.outbox c.2
           = Sio.outbox two_in_abc
             ++ [{| Sio.msg_to := Sio.msg_to m1;
                    Sio.msg_event := "room:created";
                    Sio.msg_data := Sio.msg_data m1 |}; m2]).
Proof.
  apply (room_create_as_join "0a1b2c" "A" (JDict [("mode", JStr "focus")])
           two_in_abc "").
  reflexivity.
Defined.

(** The example of the specification: two connections join the new room
    [xyz]; the second is told that the room has two members. *)
Example two_joins_example :
  let data := JDict [("roomId", JStr "xyz")] in
  (on_room_join "B" data (on_room_join "A" data two_in_abc).2).1
  = Some (JDict [("ok", JBool true); ("roomId", JStr "xyz");
                 ("members", JNum 2)]).
Proof. vm_compute. reflexivity. Qed.

End membership.

(** ** Apply on a document that has a block already *)

Section apply_more.
Implicit Types (w : world) (ds : list string) (pre body post : string).

(** X24: Apply replaces the block and puts it at the end.  As root on a
    writable hosts file made of a preamble without start marker, a block
    whose body has no end marker and a postamble without a block, Apply
    leaves preamble and postamble, without the trailing white space, a
    blank line and the new block. *)
Theorem apply_moves_block ds w pre body post :
  euid_root w = true → hosts_writable w = true →
  hosts_text w
  = pre +:+ HOSTS_TAG_START +:+ body +:+ HOSTS_TAG_END +:+ post →
  Py.contains HOSTS_TAG_START pre = false →
  Py.contains HOSTS_TAG_END body = false →
  has_block post = false →
  (apply_hosts_block ds w).1 = (true, None)
  ∧ hosts_file (apply_hosts_block ds w).2
    = Some (Py.rstrip (pre +:+ post) +:+ Py.nl +:+ Py.nl
            +:+ String.concat Py.nl (block_lines (expand_domains ds))
            +:+ Py.nl).
Proof.
  intros Hroot Hwr Htext Hpre Hbody Hpost.
  destruct (apply_hosts_block_ok ds w Hroot Hwr) as (w' & -> & Hf & _).
  split; [done |]. simpl. rewrite Hf. unfold applied. rewrite Htext.
  unfold strip_ultra_block_section.
  rewrite re_sub_block_one_block, (re_sub_block_no_block post) by done.
  by rewrite !str_app_assoc.
Qed.

Lemma apply_moves_block_witness :
  let w := root_world
             (Some (("127.0.0.1 localhost" +:+ Py.nl) +:+ HOSTS_TAG_START
                    +:+ (Py.nl +:+ "127.0.0.1 old.org" +:+ Py.nl)
                    +:+ HOSTS_TAG_END
                    +:+ (Py.nl +:+ "::1 localhost" +:+ Py.nl))) in
  (apply_hosts_block ["new.org"] w).1 = (true, None)
  ∧ hosts_file (apply_hosts_block ["new.org"] w).2
    = Some (Py.rstrip (("127.0.0.1 localhost" +:+ Py.nl)
                       +:+ (Py.nl +:+ "::1 localhost" +:+ Py.nl))
            +:+ Py.nl +:+ Py.nl
            +:+ String.concat Py.nl (block_lines (expand_domains ["new.org"]))
            +:+ Py.nl).
Proof.
  apply (apply_moves_block ["new.org"] _
           ("127.0.0.1 localhost" +:+ Py.nl)
           (Py.nl +:+ "127.0.0.1 old.org" +:+ Py.nl)
           (Py.nl +:+ "::1 localhost" +:+ Py.nl));
    vm_compute; reflexivity.
Defined.

(** X25: the lines of the block.  The list joined into the block is the
    start marker, an IPv4 and an IPv6 loopback line for each domain, in
    the order of the domains, and the end marker: two lines for each
    domain and two markers. *)
Theorem block_lines_entries ds :
  length (block_lines ds) = 2 * length ds + 2
  ∧ block_lines ds !! 0 = Some HOSTS_TAG_START
  ∧ block_lines ds !! (2 * length ds + 1) = Some HOSTS_TAG_END
  ∧ ∀ i d, ds !! i = Some d →
           block_lines ds !! (2 * i + 1) = Some ("127.0.0.1 " +:+ d)
           ∧ block_lines ds !! (2 * i + 2) = Some ("::1 " +:+ d).
Proof.
  rewrite block_lines_flat_map.
  set (f := λ d : string, ["127.0.0.1 " +:+ d; "::1 " +:+ d]).
  assert (Hlen : ∀ l, length (flat_map f l) = 2 * length l).
  { induction l as [|d l IH]; simpl in *; lia. }
  assert (Hget : ∀ l i d, l !! i = Some d →
            flat_map f l !! (2 * i) = Some ("127.0.0.1 " +:+ d)
            ∧ flat_map f l !! (2 * i + 1) = Some ("::1 " +:+ d)).
  { induction l as [|d' l IH]; intros i d Hi; [done |].
    destruct i as [|i]; simpl in Hi.
    - by injection Hi as ->.
    - destruct (IH _ _ Hi) as [H1 H2].
      replace (2 * S i) with (S (S (2 * i))) by lia. done. }
  split; [|split; [|split]].
  - simpl. rewrite length_app, Hlen. simpl. lia.
  - done.
  - replace (2 * length ds + 1) with (S (length (flat_map f ds)))
      by (rewrite Hlen; lia).
    simpl. rewrite lookup_app_r by lia. by rewrite Nat.sub_diag.
  - intros i d Hi. destruct (Hget _ _ _ Hi) as [H1 H2].
    replace (2 * i + 1) with (S (2 * i)) by lia.
    replace (2 * i + 2) with (S (2 * i + 1)) by lia.
    simpl. split; apply lookup_app_l_Some; done.
Qed.

End apply_more.

(** ** The normalised list: its entries, URLs *)

Section expand_urls.
Implicit Types (d c x h path s t a : string) (ds : list string).

#[local] Arguments String.prefix : simpl never.

(** X26: what the normalised list holds.  It never has an entry twice,
    and its entries are exactly the canonical forms of the inputs and,
    for the canonical forms that do not start with [www.], their [www.]
    forms. *)
Theorem expand_domains_members ds :
  NoDup (expand_domains ds)
  ∧ ∀ x, x ∈ expand_domains ds
         ↔ ∃ d c, d ∈ ds ∧ canonical d = Some c
                  ∧ (x = c
                     ∨ x = "www." +:+ c ∧ Py.startswith c "www." = false).
Proof.
  split.
  - rewrite expand_domains_dedup. apply NoDup_dedup.
  - apply elem_of_expand_domains.
Qed.

Lemma rstrip_nonspace_cons (c : ascii) s :
  Py.isspace c = false → ∃ t, Py.rstrip (String c s) = String c t.
Proof. intros Hc. simpl. rewrite Hc. destruct (Py.rstrip s); eauto. Qed.

Lemma rstrip_app_nonspace a (c : ascii) s :
  Py.isspace c = false →
  Py.rstrip (a +:+ String c s) = a +:+ Py.rstrip (String c s).
Proof.
  intros Hc. induction a as [|x a IH]; [done |].
  destruct (rstrip_nonspace_cons c s Hc) as [t Ht].
  change (Py.rstrip (String x a +:+ String c s))
    with (match Py.rstrip (a +:+ String c s) with
          | EmptyString =>
              if Py.isspace x then EmptyString else String x EmptyString
          | r => String x r
          end).
  rewrite IH, Ht. by destruct a.
Qed.

Lemma lstrip_app_fixed a s : a ≠ "" → Py.lstrip a = a → Py.lstrip (a +:+ s) = a +:+ s.
Proof.
  destruct a as [|x a]; [done |]. intros _. simpl.
  destruct (Py.isspace x); [|done].
  intros H%(f_equal String.length). pose proof (lstrip_length a).
  simpl in H. lia.
Qed.

Lemma lower_app a s : Py.lower (a +:+ s) = Py.lower a +:+ Py.lower s.
Proof. induction a as [|x a IH]; simpl; [done | by rewrite IH]. Qed.

Lemma contains_char_cons (a b : ascii) s :
  Py.contains (String a "") (String b s) = false
  ↔ a ≠ b ∧ Py.contains (String a "") s = false.
Proof.
  rewrite contains_cons, orb_false_iff. split.
  - intros [Hp Hs]. split; [|done]. intros ->.
    rewrite (proj2 (prefix_cons _ _ _ _)) in Hp; [done |].
    split; [done | apply prefix_nil].
  - intros [Hne Hs]. split; [|done].
    destruct (String.prefix _ _) eqn:Hp; [|done].
    by apply prefix_cons in Hp as [-> _].
Qed.

Lemma split_head_app (sep : ascii) a s :
  Py.contains (String sep "") a = false →
  Py.split_head sep (a +:+ String sep s) = a.
Proof.
  induction a as [|x a IH].
  - intros _. simpl. by rewrite Ascii.eqb_refl.
  - intros [Hne Ha]%contains_char_cons. simpl.
    destruct (Ascii.eqb_spec x sep) as [->|_]; [done |]. by rewrite IH.
Qed.

Lemma split_head_fixed (sep : ascii) a :
  Py.contains (String sep "") a = false → Py.split_head sep a = a.
Proof.
  induction a as [|x a IH]; [done |].
  intros [Hne Ha]%contains_char_cons. simpl.
  destruct (Ascii.eqb_spec x sep) as [->|_]; [done |]. by rewrite IH.
Qed.

Lemma lower_char_slash (a : ascii) :
  Py.lower_char a = "/"%char → a = "/"%char.
Proof. destruct a as [[] [] [] [] [] [] [] []]; by vm_compute. Qed.

Lemma lower_no_slash s :
  Py.contains "/" s = false → Py.contains "/" (Py.lower s) = false.
Proof.
  induction s as [|x s IH]; [done |].
  intros [Hne Hs]%contains_char_cons. simpl.
  apply contains_char_cons. split; [|by apply IH].
  intros Heq. symmetry in Heq. by apply lower_char_slash in Heq.
Qed.

(** The part of the loop body after the white space is stripped. *)
Lemma canonical_of_lower d t :
  Py.lower (Py.strip d) = t → t ≠ "" →
  canonical d
  = Some (Py.split_head "/"
            (if Py.startswith t "http://" || Py.startswith t "https://"
             then re_sub_scheme t else t)).
Proof. intros <- Hne. unfold canonical. by destruct (Py.lower _). Qed.

Lemma strip_host_path u path :
  u ≠ "" → Py.lstrip u = u →
  ∃ q, Py.lower (Py.strip (u +:+ String "/" path))
       = Py.lower u +:+ String "/" q.
Proof.
  intros Hne Hl.
  destruct (rstrip_nonspace_cons "/" path eq_refl) as [q Hq].
  exists (Py.lower q). unfold Py.strip.
  rewrite lstrip_app_fixed, rstrip_app_nonspace, Hq by done.
  by rewrite lower_app.
Qed.

Lemma scheme_http s :
  (if Py.startswith ("http://" +:+ s) "http://"
      || Py.startswith ("http://" +:+ s) "https://"
   then re_sub_scheme ("http://" +:+ s) else "http://" +:+ s) = s.
Proof.
  unfold re_sub_scheme, Py.startswith. by rewrite (prefix_app "http://" s).
Qed.

Lemma scheme_https s :
  (if Py.startswith ("https://" +:+ s) "http://"
      || Py.startswith ("https://" +:+ s) "https://"
   then re_sub_scheme ("https://" +:+ s) else "https://" +:+ s) = s.
Proof.
  unfold re_sub_scheme, Py.startswith.
  rewrite (prefix_app "https://" s).
  by change (String.prefix "http://" ("https://" +:+ s)) with false.
Qed.

(** A text whose first slash comes right after [t] starts with a scheme
    only when [t] is the scheme's name and colon. *)
Lemma no_scheme_before_slash t q :
  Py.contains "/" t = false → t ≠ "http:" → t ≠ "https:" →
  Py.startswith (t +:+ String "/" q) "http://" = false
  ∧ Py.startswith (t +:+ String "/" q) "https://" = false.
Proof.
  intros Ht Hhttp Hhttps. pose proof (split_head_app "/" t q Ht) as Hhead.
  unfold Py.startswith.
  split; (destruct (String.prefix _ _) eqn:Hp; [|done]);
    apply prefix_split in Hp; rewrite Hp in Hhead; simpl in Hhead;
    congruence.
Qed.

(** X27: a URL normalises like its host.  For a non-empty host without
    slash and without white space at either end, the host alone and the
    host with [http://] or [https://] in front and a path behind have
    the lower-cased host as canonical form; so has the host with a path
    only, unless the host is [http:] or [https:]. *)
Theorem canonical_url h path :
  h ≠ "" → Py.strip h = h → Py.contains "/" h = false →
  canonical h = Some (Py.lower h)
  ∧ canonical ("http://" +:+ h +:+ "/" +:+ path) = Some (Py.lower h)
  ∧ canonical ("https://" +:+ h +:+ "/" +:+ path) = Some (Py.lower h)
  ∧ (Py.lower h ≠ "http:" → Py.lower h ≠ "https:" →
     canonical (h +:+ "/" +:+ path) = Some (Py.lower h)).
Proof.
  intros Hne Hstrip Hslash.
  pose proof (lower_no_slash h Hslash) as Hlow.
  assert (Py.lower h ≠ "") as Hlne by by destruct h.
  pose proof (split_head_fixed "/" _ Hlow) as Hfix.
  destruct (strip_fixed h Hstrip) as [Hl Hr].
  change ("/" +:+ path) with (String "/" path).
  split; [|split; [|split]].
  - rewrite (canonical_of_lower h (Py.lower h)) by by rewrite ?Hstrip.
    destruct (no_slash_no_scheme _ Hfix) as [-> ->]. cbn [orb].
    by rewrite Hfix.
  - destruct (strip_host_path ("http://" +:+ h) path) as [q Hq];
      [done | done |].
    rewrite lower_app, !str_app_assoc in Hq.
    change (Py.lower "http://") with "http://" in Hq.
    rewrite (canonical_of_lower _ _ Hq) by done.
    by rewrite scheme_http, split_head_app.
  - destruct (strip_host_path ("https://" +:+ h) path) as [q Hq];
      [done | done |].
    rewrite lower_app, !str_app_assoc in Hq.
    change (Py.lower "https://") with "https://" in Hq.
    rewrite (canonical_of_lower _ _ Hq) by done.
    by rewrite scheme_https, split_head_app.
  - intros Hhttp Hhttps.
    destruct (strip_host_path h path Hne Hl) as [q Hq].
    rewrite (canonical_of_lower _ _ Hq) by by destruct (Py.lower h).
    destruct (no_scheme_before_slash _ q Hlow Hhttp Hhttps) as [-> ->].
    cbn [orb]. by rewrite split_head_app.
Qed.

Lemma canonical_url_witness :
  canonical "Example.COM" = Some (Py.lower "Example.COM")
  ∧ canonical ("http://" +:+ "Example.COM" +:+ "/" +:+ "a/b?c=1 ")
    = Some (Py.lower "Example.COM")
  ∧ canonical ("https://" +:+ "Example.COM" +:+ "/" +:+ "a/b?c=1 ")
    = Some (Py.lower "Example.COM")
  ∧ (Py.lower "Example.COM" ≠ "http:" → Py.lower "Example.COM" ≠ "https:" →
     canonical ("Example.COM" +:+ "/" +:+ "a/b?c=1 ")
     = Some (Py.lower "Example.COM")).
Proof.
  apply (canonical_url "Example.COM" "a/b?c=1 ");
    [discriminate | reflexivity | reflexivity].
Defined.

(** The host [http:] with a path is read as a URL. *)
Example canonical_scheme_host :
  canonical "http:" = Some "http:"
  ∧ canonical ("http:" +:+ "/" +:+ "/example.com") = Some "example.com".
Proof. vm_compute. done. Qed.

End expand_urls.

(** ** More on rooms and on the prober *)

Section more_rooms.
Implicit Types (sid room_id : string) (data : json) (s : Sio.state)
  (w : world).

(** X28: leaving a room one is not in.  When the server has no room
    without members, the rooms are as they were and the reply carries the
    count the room had; the two messages are emitted all the same. *)
Theorem room_leave_nonmember sid data s room_id :
  room_id_of data = Some room_id → room_id ≠ "" →
  sid ∉ Sio.members room_id s → no_empty_room s →
  let r := on_room_leave sid data s in
  Sio.rooms r.2 = Sio.rooms s
  ∧ r.1 = Some (JDict [("ok", JBool true); ("roomId", JStr room_id);
                       ("members", JNum (members_in room_id s))])
  ∧ length (Sio.outbox r.2) = length (Sio.outbox s) + 2.
Proof.
  intros Hid Hne%String.eqb_neq Hnot Hwf.
  assert (Sio.members room_id s ∖ {[sid]} = Sio.members room_id s)
    as Hsame by set_solver.
  assert (Sio.rooms (Sio.leave_room sid room_id s) = Sio.rooms s) as Hrooms.
  { unfold Sio.leave_room. simpl. rewrite Hsame.
    pose proof (members_lookup room_id s (Hwf room_id)) as Hlook.
    destruct (decide (Sio.members room_id s = ∅)).
    - by apply delete_id.
    - by apply insert_id. }
  unfold on_room_leave. rewrite Hid, Hne. simpl.
  split; [done |]. split.
  - unfold room_ok, members_in.
    by rewrite !members_emit, members_leave, decide_True, Hsame.
  - rewrite !length_app. simpl. lia.
Qed.

Lemma room_leave_nonmember_witness :
  let data := JDict [("roomId", JStr "abc")] in
  let r := on_room_leave "C" data two_in_abc in
  Sio.rooms r.2 = Sio.rooms two_in_abc
  ∧ r.1 = Some (JDict [("ok", JBool true); ("roomId", JStr "abc");
                       ("members", JNum (members_in "abc" two_in_abc))])
  ∧ length (Sio.outbox r.2) = length (Sio.outbox two_in_abc) + 2.
Proof.
  apply (room_leave_nonmember "C" (JDict [("roomId", JStr "abc")])
           two_in_abc "abc");
    [reflexivity | discriminate | by vm_compute | apply no_empty_two_in_abc].
Defined.

Lemma sorted_elements_ext (X Y : gset string) :
  (∀ a, a ∈ X ↔ a ∈ Y) →
  merge_sort String.le (elements X) = merge_sort String.le (elements Y).
Proof. intros H. by assert (X = Y) as -> by by apply set_eq. Qed.

(** X29: the prober's answer is canonical.  Two answers of the resolver
    that hold the same addresses, in whatever order and however often,
    give the same list. *)
Theorem resolve_all_canonical domain w1 w2 infos1 infos2 :
  getaddrinfo w1 domain = Some infos1 →
  getaddrinfo w2 domain = Some infos2 →
  (∀ a, a ∈ ai_addr <$> infos1 ↔ a ∈ ai_addr <$> infos2) →
  (resolve_all domain w1).1 = (resolve_all domain w2).1.
Proof.
  intros H1 H2 Hsame. unfold resolve_all. simpl. rewrite H1, H2.
  apply sorted_elements_ext. intros a.
  rewrite !elem_of_collect_addrs. specialize (Hsame a).
  rewrite !list_elem_of_fmap in Hsame. set_solver.
Qed.

Lemma resolve_all_canonical_witness :
  (resolve_all "example.com" resolver_world).1
  = (resolve_all "example.com" resolver_world_rev).1.
Proof.
  apply (resolve_all_canonical "example.com" resolver_world
           resolver_world_rev
           [ {| ai_family := 2; ai_addr := "93.184.216.34"; ai_port := 0 |};
             {| ai_family := 10; ai_addr := "2606:2800:220:1::1";
                ai_port := 0 |};
             {| ai_family := 2; ai_addr := "93.184.216.34"; ai_port := 0 |} ]
           [ {| ai_family := 10; ai_addr := "2606:2800:220:1::1";
                ai_port := 0 |};
             {| ai_family := 2; ai_addr := "93.184.216.34"; ai_port := 0 |} ]);
    [reflexivity | reflexivity |].
  intros a. simpl. rewrite !elem_of_cons. tauto.
Defined.

End more_rooms.

(** ** The normalised list holds both forms of every input *)

Section expand_forms.
Implicit Types (d c h x y : string) (ds : list string).




(** The two entries of each input of the witness: [Example.com] gives
    the entries 0 and 1, the URL of [foo.org] the entries 2 and 3; a
    blank input gives none. *)
Example expand_domains_forms_example :
  let ds := ["Example.com"; "https://foo.org/a"; "example.com"] in
  canonical "Example.com" = Some "example.com"
  ∧ canonical "https://foo.org/a" = Some "foo.org"
  ∧ expand_domains ds !! 0 = Some "example.com"
  ∧ expand_domains ds !! 1 = Some "www.example.com"
  ∧ expand_domains ds !! 2 = Some "foo.org"
  ∧ expand_domains ds !! 3 = Some "www.foo.org"
  ∧ canonical "  " = None
  ∧ expand_domains ["  "] = [].
Proof. vm_compute. done. Qed.

End expand_forms.
